(** * BeyondLink: point decoding and the per-device point pipeline

    A shallow embedding of the parts of [LaserProtocol.cpp] (device
    identification from the destination group address, [ParsePacket]) and of
    [LaserSource.cpp] ([UpdatePointList] and its helpers) that the
    specification makes statements about, together with the theorems that
    settle those statements.

    Conventions.
    - A C++ [float] is an IEEE-754 binary32 value: [spec_float] with
      precision 24 and [emax] 128, every operation rounded to nearest-even
      (as MSVC's default floating-point mode evaluates [float] expressions).
      A [double] is the same with precision 53 and [emax] 1024.
    - An [int] is a [Z]; the sizes and indices of a [std::vector] are [nat].
      Neither wraps in the model, which describes the code on lists of fewer
      than [2 ^ 31] points: there no index or counter of the source
      overflows.
    - A member function that writes fields of [*this] takes the object and
      returns the new one. *)

From Stdlib Require Import ZArith Bool Lia.
From Stdlib Require Import Floats.SpecFloat.
From stdpp Require Import base list gmap strings pretty.

(** ** IEEE-754 arithmetic, as the C++ operators use it *)

Definition float : Type := spec_float.
Definition double : Type := spec_float.

(** [a > b], [a < b] and [a == b] on floating-point values; all three are
    false when an operand is NaN. *)
Definition fgt (a b : spec_float) : bool :=
  match SFcompare a b with Some Gt => true | _ => false end.
Definition flt (a b : spec_float) : bool := SFltb a b.
Definition feq (a b : spec_float) : bool := SFeqb a b.

(** [std::max(a, b)] is [(a < b) ? b : a] and [std::min(a, b)] is
    [(b < a) ? b : a]. *)
Definition std_max (a b : spec_float) : spec_float := if flt a b then b else a.
Definition std_min (a b : spec_float) : spec_float := if flt b a then b else a.

Module F32.
Definition prec : Z := 24.
Definition emax : Z := 128.

Definition add : float -> float -> float := SFadd prec emax.
Definition sub : float -> float -> float := SFsub prec emax.
Definition mul : float -> float -> float := SFmul prec emax.
Definition div : float -> float -> float := SFdiv prec emax.
Definition sqrt : float -> float := SFsqrt prec emax.
Definition neg : float -> float := SFopp.

(** [static_cast<float>(n)] for an [int] n. *)
Definition of_int (n : Z) : float := binary_normalize prec emax n 0 false.

(** The literals of the source. *)
Definition zero : float := S754_zero false.
Definition half : float := S754_finite false 8388608 (-24).
Definition one : float := S754_finite false 8388608 (-23).
Definition two : float := S754_finite false 8388608 (-22).
Definition four : float := S754_finite false 8388608 (-21).
Definition c100 : float := S754_finite false 13107200 (-17).
Definition c255 : float := S754_finite false 16711680 (-16).
Definition c0_1 : float := S754_finite false 13421773 (-27).
Definition c0_2 : float := S754_finite false 13421773 (-26).
Definition c0_01 : float := S754_finite false 10737418 (-30).
Definition c0_0001 : float := S754_finite false 13743895 (-37).
End F32.

Module F64.
Definition prec : Z := 53.
Definition emax : Z := 1024.

Definition sub : double -> double -> double := SFsub prec emax.
Definition mul : double -> double -> double := SFmul prec emax.
Definition div : double -> double -> double := SFdiv prec emax.

Definition zero : double := S754_zero false.
Definition half : double := S754_finite false 4503599627370496 (-53).
Definition one : double := S754_finite false 4503599627370496 (-52).
Definition two : double := S754_finite false 4503599627370496 (-51).
Definition four : double := S754_finite false 4503599627370496 (-50).

(** The implicit conversion [float -> double] (exact). *)
Definition of_float (x : float) : double :=
  match x with
  | S754_finite s m e => binary_normalize prec emax (cond_Zopp s (Zpos m)) e s
  | _ => x
  end.

(** The implicit conversion [double -> float] (rounds to nearest-even). *)
Definition to_float (x : double) : float :=
  match x with
  | S754_finite s m e =>
      binary_normalize F32.prec F32.emax (cond_Zopp s (Zpos m)) e s
  | _ => x
  end.
End F64.

(** ** Data model *)

(** [LaserPoint.h] and [LaserSettings.h] are not among the sources at hand.
    The fields below are the ones the code reads and writes; the field [Z] is
    the beam marker. *)
Module LP.
Record t : Type := mk {
  X : float; Y : float; Z : float;
  R : float; G : float; B : float;
  Focus : float
}.
End LP.
Abbreviation LaserPoint := LP.t.

Definition set_Z (p : LaserPoint) (z : float) : LaserPoint :=
  LP.mk (LP.X p) (LP.Y p) z (LP.R p) (LP.G p) (LP.B p) (LP.Focus p).

Definition set_XY (p : LaserPoint) (x y : float) : LaserPoint :=
  LP.mk x y (LP.Z p) (LP.R p) (LP.G p) (LP.B p) (LP.Focus p).

Definition set_RGB (p : LaserPoint) (r g b : float) : LaserPoint :=
  LP.mk (LP.X p) (LP.Y p) (LP.Z p) r g b (LP.Focus p).

Definition set_Focus (p : LaserPoint) (f : float) : LaserPoint :=
  LP.mk (LP.X p) (LP.Y p) (LP.Z p) (LP.R p) (LP.G p) (LP.B p) f.

(** The two member functions of [LaserPoint] that [LaserSource.cpp] calls.
    Their bodies are in the missing header, so the pipeline is parameterised
    by them: [IsSamePosition a b] is [a.IsSamePosition(b)]. *)
Class LaserPointMembers : Type := {
  IsSamePosition : LaserPoint -> LaserPoint -> bool;
  IsBlankPoint : LaserPoint -> bool
}.

Inductive QualityLevel : Type := Low | Medium | High | Ultra.

Record LaserSettings : Type := mkSettings {
  MaxLaserDevices : Z;
  ScannerSimulation : bool;
  LaserQuality : QualityLevel;
  SampleCount : Z;
  VelocitySmoothing : float;
  EdgeFade : float;
  BeamRepeatThreshold : Z;
  BeamIntensityCount : Z;
  LineWidth : float;
  MaxBeamBrush : float;
  EnableBeamBrush : bool
}.

(** The data members of [LaserSource] (the mutex apart). *)
Record LaserSource : Type := mkSource {
  m_DeviceID : Z;
  m_Settings : LaserSettings;
  m_RawPoints : list LaserPoint;
  m_ProcessedPoints : list LaserPoint;
  m_BeamPoints : list LaserPoint;
  m_HotBeamPoints : list LaserPoint;
  m_LineWidth : float;
  m_MaxBeamBrush : float;
  m_EnableBeamBrush : bool
}.

(** ** LaserSource.cpp *)

Section LaserSourceCode.
Context {members : LaserPointMembers}.

(** [SetPointList] (both overloads): the raw list is replaced wholesale. *)
Definition SetPointList (points : list LaserPoint) (src : LaserSource)
  : LaserSource :=
  mkSource (m_DeviceID src) (m_Settings src) points
    (m_ProcessedPoints src) (m_BeamPoints src) (m_HotBeamPoints src)
    (m_LineWidth src) (m_MaxBeamBrush src) (m_EnableBeamBrush src).

Definition SetBeamBrushEnabled (enabled : bool) (src : LaserSource)
  : LaserSource :=
  mkSource (m_DeviceID src) (m_Settings src) (m_RawPoints src)
    (m_ProcessedPoints src) (m_BeamPoints src) (m_HotBeamPoints src)
    (m_LineWidth src) (m_MaxBeamBrush src) enabled.

(** [SmoothVector]: the two reference parameters are returned. *)
Definition SmoothVector (currentX currentY targetX targetY smoothing : float)
  : float * float :=
  (F32.add currentX
     (F32.mul (F32.sub targetX currentX) (F32.sub F32.one smoothing)),
   F32.add currentY
     (F32.mul (F32.sub targetY currentY) (F32.sub F32.one smoothing))).

(** One sample of [InterpolatePoints]: the body of its inner loop. *)
Definition InterpolatePoints_sample (p0 p1 : LaserPoint) (sampleCount s : Z)
  : LaserPoint :=
  let t := F32.div (F32.of_int s) (F32.of_int (sampleCount - 1)) in
  let lerp (a b : float) := F32.add a (F32.mul (F32.sub b a) t) in
  LP.mk (lerp (LP.X p0) (LP.X p1))
        (lerp (LP.Y p0) (LP.Y p1))
        (if fgt (LP.Z p0) F32.zero then lerp (LP.Z p0) (LP.Z p1)
         else F32.zero)
        (lerp (LP.R p0) (LP.R p1))
        (lerp (LP.G p0) (LP.G p1))
        (lerp (LP.B p0) (LP.B p1))
        (lerp (LP.Focus p0) (LP.Focus p1)).

Definition InterpolatePoints (points : list LaserPoint) (sampleCount : Z)
  : list LaserPoint :=
  if (length points <? 2)%nat || (sampleCount <=? 1)%Z then points
  else
    fold_left
      (fun result i =>
         match points !! i, points !! (i + 1)%nat with
         | Some p0, Some p1 =>
             fold_left
               (fun result s =>
                  result ++
                  [InterpolatePoints_sample p0 p1 sampleCount (Z.of_nat s)])
               (seq 0 (Z.to_nat sampleCount)) result
         | _, _ => result
         end)
      (seq 0 (length points - 1)) [].

(** The loop-carried variables of [ApplyScannerSimulation]. *)
Record ScannerState : Type := mkScanner {
  currentVelX : float; currentVelY : float;
  currentPosX : float; currentPosY : float;
  smoothed : list LaserPoint
}.

Definition ApplyScannerSimulation_step (settings : LaserSettings)
    (smoothing edgeFade : float) (st : ScannerState) (point : LaserPoint)
  : ScannerState :=
  let targetVelX := F32.sub (LP.X point) (currentPosX st) in
  let targetVelY := F32.sub (LP.Y point) (currentPosY st) in
  let distance :=
    F32.sqrt (F32.add (F32.mul targetVelX targetVelX)
                      (F32.mul targetVelY targetVelY)) in
  let '(velX, velY, posX, posY, intensity) :=
    if fgt distance F32.zero then
      let '(velX, velY) :=
        SmoothVector (currentVelX st) (currentVelY st)
                     targetVelX targetVelY smoothing in
      let stepSize :=
        F32.mul (F32.div F32.c100 (F32.of_int (SampleCount settings)))
                F32.c0_01 in
      let posX := F32.add (currentPosX st) (F32.mul velX stepSize) in
      let posY := F32.add (currentPosY st) (F32.mul velY stepSize) in
      let velLength :=
        F32.sqrt (F32.add (F32.mul velX velX) (F32.mul velY velY)) in
      let intensity :=
        std_min F32.four
          (F32.mul
             (F32.mul (F32.mul (F32.div F32.one velLength) F32.c0_2)
                      edgeFade)
             F32.two) in
      let intensity :=
        F64.to_float
          (F64.div (F64.of_float (std_min F32.four intensity))
             (std_max F64.one
                (F64.mul (F64.mul (F64.of_float edgeFade) F64.two)
                         F64.four))) in
      let fadePercent :=
        F64.to_float
          (F64.mul
             (std_max F64.zero (F64.sub (F64.of_float edgeFade) F64.half))
             F64.two) in
      let intensity :=
        F32.add (F32.mul intensity (F32.sub F32.one fadePercent))
                fadePercent in
      (velX, velY, posX, posY, intensity)
    else
      (currentVelX st, currentVelY st, currentPosX st, currentPosY st,
       F32.one) in
  let intensity := if fgt (LP.Z point) F32.zero then F32.one else intensity in
  let smoothedPoint := set_XY point posX posY in
  let smoothedPoint :=
    if feq (LP.Z point) F32.zero then
      set_RGB smoothedPoint
        (F32.mul (LP.R smoothedPoint) intensity)
        (F32.mul (LP.G smoothedPoint) intensity)
        (F32.mul (LP.B smoothedPoint) intensity)
    else smoothedPoint in
  mkScanner velX velY posX posY (smoothed st ++ [smoothedPoint]).

Definition ApplyScannerSimulation (settings : LaserSettings)
    (points : list LaserPoint) : list LaserPoint :=
  if (length points <? 2)%nat then points
  else
    let interpolated := InterpolatePoints points (SampleCount settings) in
    let smoothing := VelocitySmoothing settings in
    let edgeFade := std_max F32.c0_1 (EdgeFade settings) in
    match interpolated with
    | [] => []
    | first :: _ =>
        smoothed
          (fold_left (ApplyScannerSimulation_step settings smoothing edgeFade)
             interpolated
             (mkScanner F32.zero F32.zero (LP.X first) (LP.Y first) []))
    end.

(** [DownsamplePoints]. The loop [for (i = 0; i < size; i += factor)] runs
    at most [size] times, which is the fuel given to it. *)
Fixpoint DownsamplePoints_loop (fuel : nat) (points : list LaserPoint)
    (factor i : nat) (result : list LaserPoint) : list LaserPoint :=
  match fuel with
  | O => result
  | S fuel' =>
      if (i <? length points)%nat then
        DownsamplePoints_loop fuel' points factor (i + factor)
          (match points !! i with
           | Some p => result ++ [p]
           | None => result
           end)
      else result
  end.

Definition DownsamplePoints (points : list LaserPoint) (factor : Z)
  : list LaserPoint :=
  if (factor <=? 1)%Z || (length points =? 0)%nat then points
  else DownsamplePoints_loop (length points) points (Z.to_nat factor) 0 [].

(** The synthetic points of one detected beam: the inner loop of
    [GenerateHotBeams]. *)
Definition HotBeamLevel (beamIntensityCount j : Z) : float :=
  std_max F32.c0_0001
    (F32.div (F32.of_int j) (F32.of_int (beamIntensityCount - 1))).

Definition EmitHotBeams (beamIntensityCount : Z) (beamPoint : LaserPoint)
    (hot : list LaserPoint) : list LaserPoint :=
  fold_left
    (fun hot j =>
       hot ++ [set_Z beamPoint (HotBeamLevel beamIntensityCount (Z.of_nat j))])
    (seq 0 (Z.to_nat beamIntensityCount)) hot.

(** The loop-carried variables of [GenerateHotBeams]. *)
Record BeamScan : Type := mkBeamScan {
  beamIndices : list nat;
  consecutiveCount : Z;
  hotBeamPoints : list LaserPoint
}.

(** One iteration of the loop of [GenerateHotBeams], at index [i].
    [None] stands for undefined behaviour: [beamIndices.back()] on an empty
    vector (or an index out of range). *)
Definition GenerateHotBeams_step (settings : LaserSettings)
    (points : list LaserPoint) (i : nat) (st : BeamScan) : option BeamScan :=
  match points !! i, points !! (i - 1)%nat with
  | Some curr, Some prev =>
      if IsSamePosition curr prev
         && negb (IsBlankPoint curr)
         && negb (IsBlankPoint prev)
         && (i <? length points - 1)%nat
      then
        let indices := beamIndices st ++ [(i - 1)%nat] in
        let indices :=
          if (i =? length points - 1)%nat then indices ++ [i] else indices in
        Some (mkBeamScan indices (consecutiveCount st + 1)%Z
                (hotBeamPoints st))
      else if (BeamRepeatThreshold settings <? consecutiveCount st)%Z then
        match last (beamIndices st) with
        | Some k =>
            match points !! k with
            | Some beamPoint =>
                Some (mkBeamScan [] 0%Z
                        (EmitHotBeams (BeamIntensityCount settings) beamPoint
                           (hotBeamPoints st)))
            | None => None
            end
        | None => None
        end
      else Some (mkBeamScan [] 0%Z (hotBeamPoints st))
  | _, _ => None
  end.

(** [GenerateHotBeams]: the new value of [m_HotBeamPoints]. *)
Definition GenerateHotBeams (settings : LaserSettings)
    (points : list LaserPoint) : option (list LaserPoint) :=
  if (length points <? 2)%nat then Some []
  else
    hotBeamPoints <$>
      fold_left
        (fun st i =>
           match st with
           | Some st => GenerateHotBeams_step settings points i st
           | None => None
           end)
        (seq 1 (length points - 1)) (Some (mkBeamScan [] 0%Z [])).

Definition RemoveDuplicatePoints (points : list LaserPoint)
  : list LaserPoint :=
  match points with
  | [] => points
  | first :: others =>
      fold_left
        (fun result p =>
           match last result with
           | Some back =>
               if negb (IsSamePosition p back) then result ++ [p] else result
           | None => result
           end)
        others [first]
  end.

Definition downsampleFactor (q : QualityLevel) : Z :=
  match q with Low => 8 | Medium => 4 | High => 2 | Ultra => 1 end.

Definition downsampleFactorBeams (q : QualityLevel) : Z :=
  match q with Low => 8 | Medium => 8 | High => 2 | Ultra => 1 end.

(** [UpdatePointList]. [None] is the undefined behaviour of
    [GenerateHotBeams]. *)
Definition UpdatePointList (enableScannerSim : bool) (src : LaserSource)
  : option LaserSource :=
  let settings := m_Settings src in
  let raw := m_RawPoints src in
  let with_outputs processed beam hot :=
    mkSource (m_DeviceID src) settings raw processed beam hot
      (m_LineWidth src) (m_MaxBeamBrush src) (m_EnableBeamBrush src) in
  if (length raw =? 0)%nat then Some (with_outputs [] [] [])
  else
    match GenerateHotBeams settings raw with
    | None => None
    | Some hot =>
        if enableScannerSim && (1 <? length raw)%nat then
          let interpolated := ApplyScannerSimulation settings raw in
          let processed :=
            DownsamplePoints interpolated
              (downsampleFactor (LaserQuality settings)) in
          let beam :=
            DownsamplePoints interpolated
              (downsampleFactorBeams (LaserQuality settings)) in
          let processed :=
            if m_EnableBeamBrush src then RemoveDuplicatePoints processed
            else processed in
          Some (with_outputs processed beam hot)
        else
          let processed := raw in
          let beam := raw in
          let processed :=
            if m_EnableBeamBrush src then RemoveDuplicatePoints processed
            else processed in
          Some (with_outputs processed beam hot)
    end.
End LaserSourceCode.

(** ** LaserProtocol.cpp *)

(** *** Device identification (the [_WIN32] receive path)

    [in_addr::s_addr] is a 32-bit word holding the four octets of the address
    in memory order; on the little-endian targets of the [_WIN32] path octet
    [k] is bits [8k .. 8k+7]. *)
Definition in_addr (a b c d : Z) : Z :=
  (a + b * 2 ^ 8 + c * 2 ^ 16 + d * 2 ^ 24)%Z.

(** [addrBytes[k]], reading [s_addr] through an [unsigned char*]. *)
Definition addrBytes (s_addr k : Z) : Z :=
  Z.land (Z.shiftr s_addr (8 * k)) 255.

(** A control message of the received datagram; [ipi_addr] is the [s_addr]
    of its [IN_PKTINFO] payload. *)
Record cmsg : Type := mkCmsg {
  cmsg_level : Z;
  cmsg_type : Z;
  ipi_addr : Z
}.

(** Winsock's values of the two constants. *)
Definition IPPROTO_IP : Z := 0.
Definition IP_PKTINFO : Z := 19.

(** The loop over the control messages: [destAddr.sin_addr.s_addr], which
    stays 0 when no [IP_PKTINFO] message is present. *)
Definition DestinationAddress (cmsgs : list cmsg) : Z :=
  match
    List.find
      (fun c => (cmsg_level c =? IPPROTO_IP)%Z && (cmsg_type c =? IP_PKTINFO)%Z)
      cmsgs
  with
  | Some c => ipi_addr c
  | None => 0%Z
  end.

(** [extractedDeviceID], from the destination address. *)
Definition ExtractDeviceID (s_addr : Z) : Z :=
  if negb (s_addr =? 0)%Z then
    if (addrBytes s_addr 0 =? 239)%Z && (addrBytes s_addr 1 =? 255)%Z
    then addrBytes s_addr 2
    else (-1)%Z
  else (-1)%Z.

(** The receive path of the other platforms has no destination address. *)
Definition ExtractDeviceID_other_platforms : Z := (-1)%Z.

(** *** ParsePacket *)

(** The colour normalisation and range protection of the decoding loop:
    the three channels are divided by 255 when one of them exceeds 1, then
    each is clamped to [0, 1]. *)
Definition ParsePacket_color (R G B : float) : float * float * float :=
  let '(R, G, B) :=
    if fgt R F32.one || fgt G F32.one || fgt B F32.one
    then (F32.div R F32.c255, F32.div G F32.c255, F32.div B F32.c255)
    else (R, G, B) in
  let R := std_max F32.zero (std_min F32.one R) in
  let G := std_max F32.zero (std_min F32.one G) in
  let B := std_max F32.zero (std_min F32.one B) in
  (R, G, B).

(** The range protection of Focus in the decoding loop. *)
Definition ParsePacket_focus (Focus : float) : float :=
  F32.div (std_max F32.zero (std_min F32.c255 Focus)) F32.c255.

(** One iteration of the decoding loop: sample [i] of the decoder's buffer
    [floatData] (six floats a sample) is appended to [points], and its colour
    and Focus are written to the point before it. *)
Definition ParsePacket_step (floatData : Z -> float) (points : list LaserPoint)
    (i : Z) : list LaserPoint :=
  let X := floatData (i * 6 + 0)%Z in
  let Y := floatData (i * 6 + 1)%Z in
  let Focus := floatData (i * 6 + 2)%Z in
  let R := floatData (i * 6 + 3)%Z in
  let G := floatData (i * 6 + 4)%Z in
  let B := floatData (i * 6 + 5)%Z in
  let '(R, G, B) := ParsePacket_color R G B in
  let Y := F32.neg Y in
  let Focus := ParsePacket_focus Focus in
  let point := LP.mk X Y F32.zero F32.zero F32.zero F32.zero F32.zero in
  let points := points ++ [point] in
  if (0 <? i)%Z then
    alter (fun q => set_Focus (set_RGB q R G B) Focus)
      (length points - 2)%nat points
  else points.

Section Decoder.
(** The state kept inside the vendor module [linetD2_x64.dll]. *)
Variable Dll : Type.

Record NetworkStats : Type := mkStats {
  PacketsReceived : Z;
  BytesReceived : Z;
  PacketsDropped : Z;
  LastPacketSize : Z
}.

(** The members of [LaserProtocol] that the receive path uses. A function
    pointer that was not resolved is [None]; [m_GetData] yields the point
    count and the buffer ([None] for a null pointer); [m_DataCallback]
    tells whether a callback is registered. *)
Record LaserProtocol : Type := mkProtocol {
  m_MaxDevices : Z;
  m_ReadLaserData : option (Dll -> list Z -> Z -> Dll);
  m_GetData : option (Dll -> Z -> Z * option (Z -> float));
  m_DataCallback : bool;
  m_Stats : NetworkStats
}.

(** The result of [ParsePacket]: its return value, the two output
    parameters and the state of the vendor module. *)
Record Parsed : Type := mkParsed {
  parsed_ok : bool;
  parsed_deviceID : Z;
  parsed_points : list LaserPoint;
  parsed_dll : Dll
}.

Definition ParsePacket (proto : LaserProtocol) (dll : Dll) (data : list Z)
    (length : Z) (extractedDeviceID deviceID : Z) (points : list LaserPoint)
  : Parsed :=
  match m_ReadLaserData proto, m_GetData proto with
  | Some ReadLaserData, Some GetData =>
      if (length =? 0)%Z then mkParsed false deviceID points dll
      else
        let dll := ReadLaserData dll data length in
        if (0 <=? extractedDeviceID)%Z && (extractedDeviceID <? 4)%Z then
          match GetData dll extractedDeviceID with
          | (pointCount, Some floatData) =>
              if (0 <? pointCount)%Z then
                mkParsed true extractedDeviceID
                  (fold_left (ParsePacket_step floatData)
                     (Z.of_nat <$> seq 0 (Z.to_nat pointCount)) [])
                  dll
              else mkParsed false deviceID points dll
          | (_, None) => mkParsed false deviceID points dll
          end
        else mkParsed false deviceID points dll
  | _, _ => mkParsed false deviceID points dll
  end.

(** What one turn of the loop of [ReceiveThread] does with a datagram:
    the new statistics, the new state of the vendor module, and the
    arguments of the call of the data callback when there is one. *)
Record Received : Type := mkReceived {
  recv_stats : NetworkStats;
  recv_dll : Dll;
  recv_callback : option (Z * list LaserPoint)
}.

Definition ReceiveThread_step (proto : LaserProtocol) (dll : Dll)
    (result bytesReceived : Z) (buffer : list Z) (cmsgs : list cmsg)
  : Received :=
  if negb (result =? 0)%Z || (bytesReceived =? 0)%Z then
    mkReceived (m_Stats proto) dll None
  else
    let extractedDeviceID := ExtractDeviceID (DestinationAddress cmsgs) in
    let stats :=
      mkStats ((PacketsReceived (m_Stats proto) + 1) mod 2 ^ 64)%Z
              ((BytesReceived (m_Stats proto) + bytesReceived) mod 2 ^ 64)%Z
              (PacketsDropped (m_Stats proto))
              bytesReceived in
    let parsed :=
      ParsePacket proto dll buffer bytesReceived extractedDeviceID (-1)%Z [] in
    if parsed_ok parsed then
      mkReceived stats (parsed_dll parsed)
        (if m_DataCallback proto
         then Some (parsed_deviceID parsed, parsed_points parsed)
         else None)
    else mkReceived stats (parsed_dll parsed) None.
End Decoder.

Arguments mkProtocol {Dll}.
Arguments m_MaxDevices {Dll}.
Arguments m_ReadLaserData {Dll}.
Arguments m_GetData {Dll}.
Arguments m_DataCallback {Dll}.
Arguments m_Stats {Dll}.
Arguments mkParsed {Dll}.
Arguments parsed_ok {Dll}.
Arguments parsed_deviceID {Dll}.
Arguments parsed_points {Dll}.
Arguments parsed_dll {Dll}.
Arguments ParsePacket {Dll}.
Arguments mkReceived {Dll}.
Arguments recv_stats {Dll}.
Arguments recv_dll {Dll}.
Arguments recv_callback {Dll}.
Arguments ReceiveThread_step {Dll}.

(** ** Vocabulary of the statements *)

(** [rel] holds of every two neighbours of the list. *)
Fixpoint adjacent_all {A : Type} (rel : A -> A -> bool) (l : list A) : bool :=
  match l with
  | a :: (b :: _) as t => rel a b && adjacent_all rel t
  | _ => true
  end.

(** The sample at index [i] of a decoder buffer: X, Y, Focus, R, G, B. *)
Definition wire_X (floatData : Z -> float) (i : nat) : float :=
  floatData (Z.of_nat i * 6 + 0)%Z.
Definition wire_Y (floatData : Z -> float) (i : nat) : float :=
  floatData (Z.of_nat i * 6 + 1)%Z.
Definition wire_Focus (floatData : Z -> float) (i : nat) : float :=
  floatData (Z.of_nat i * 6 + 2)%Z.
Definition wire_R (floatData : Z -> float) (i : nat) : float :=
  floatData (Z.of_nat i * 6 + 3)%Z.
Definition wire_G (floatData : Z -> float) (i : nat) : float :=
  floatData (Z.of_nat i * 6 + 4)%Z.
Definition wire_B (floatData : Z -> float) (i : nat) : float :=
  floatData (Z.of_nat i * 6 + 5)%Z.

(** A decoder buffer holding the given floats. *)
Definition buffer_of (floats : list float) : Z -> float :=
  fun k => nth (Z.to_nat k) floats F32.zero.

Definition color (p : LaserPoint) : float * float * float :=
  (LP.R p, LP.G p, LP.B p).

(** Clamping to [0, 1], as the decoding loop writes it. *)
Definition clamp01 (c : float) : float :=
  std_max F32.zero (std_min F32.one c).

(** What [ParsePacket] makes of sample [i] of a buffer of [n] samples: the
    position of sample [i], the colour and Focus of sample [i + 1], zero
    colour and Focus when there is no such sample. *)
Definition lagged_point (floatData : Z -> float) (n i : nat) : LaserPoint :=
  let '(R, G, B) :=
    if (S i <? n)%nat
    then ParsePacket_color (wire_R floatData (S i)) (wire_G floatData (S i))
                           (wire_B floatData (S i))
    else (F32.zero, F32.zero, F32.zero) in
  let Focus :=
    if (S i <? n)%nat then ParsePacket_focus (wire_Focus floatData (S i))
    else F32.zero in
  LP.mk (wire_X floatData i) (F32.neg (wire_Y floatData i)) F32.zero
        R G B Focus.

(** A protocol object whose vendor module answers every query with the same
    buffer, for the evaluations. *)
Definition fixed_decoder (maxDevices pointCount : Z) (floats : list float)
  : LaserProtocol unit :=
  mkProtocol maxDevices
    (Some (fun dll _ _ => dll))
    (Some (fun _ _ => (pointCount, Some (buffer_of floats))))
    true (mkStats 0 0 0 0).

(** The beam-marker levels of one detected beam, in the order of emission. *)
Definition hot_beam_levels (count : Z) : list float :=
  map (fun j => HotBeamLevel count (Z.of_nat j)) (seq 0 (Z.to_nat count)).

#[global] Instance spec_float_eq_dec : EqDecision spec_float.
Proof. solve_decision. Defined.

Local Open Scope Z_scope.

(** A binary32 mantissa of full width (24 bits). *)
Definition normal24 (m : positive) : Prop := 2 ^ 23 <= Zpos m < 2 ^ 24.

(** The value of a positive finite float, scaled by [2 ^ 48]. *)
Definition scaled48 (x : spec_float) : Z :=
  match x with
  | S754_finite false m e => Zpos m * 2 ^ (e + 48)
  | _ => 0
  end.

(** [check] holds of the [n] integers from [d] on. *)
Fixpoint forall_from (n : nat) (d : Z) (check : Z -> bool) : bool :=
  match n with
  | O => true
  | S n' => check d && forall_from n' (d + 1) check
  end.

(** Facts about a small integer [d] that are checked by evaluation:
    [static_cast<float>(d)] is exact and has a full-width mantissa, the level
    [1 / d] is above the floor 0.0001, and [d / d] is 1.0. *)
Definition of_int_exact (j : Z) : bool :=
  match F32.of_int j with
  | S754_finite false m e =>
      (2 ^ 23 <=? Zpos m) && (Zpos m <? 2 ^ 24)
      && (-23 <=? e) && (e <=? 0) && (Zpos m =? j * 2 ^ (- e))
  | _ => false
  end.

Definition first_level_above_floor (d : Z) : bool :=
  scaled48 F32.c0_0001 <? scaled48 (F32.div (F32.of_int 1) (F32.of_int d)).

Definition last_level_one (d : Z) : bool :=
  bool_decide (F32.div (F32.of_int d) (F32.of_int d) = F32.one).

Local Close Scope Z_scope.

Section RunVocabulary.
Context {members : LaserPointMembers}.

(** The pair test of [GenerateHotBeams]: [curr] follows [prev], both are
    visible and at the same position. *)
Definition stationary (prev curr : LaserPoint) : bool :=
  IsSamePosition curr prev
  && negb (IsBlankPoint curr) && negb (IsBlankPoint prev).

(** A run: every two neighbours are a stationary pair. A run of [k] pairs
    has [k + 1] points. *)
Definition stationary_run (run : list LaserPoint) : bool :=
  adjacent_all stationary run.

(** No stationary pair is formed by the last point of [before] and the
    first point of [after]. *)
Definition run_boundary (before after : list LaserPoint) : bool :=
  match last before, head after with
  | Some a, Some b => negb (stationary a b)
  | _, _ => true
  end.

(** What a run that is closed by a later point adds to the hot-beam list. *)
Definition run_hot_beams (settings : LaserSettings) (run : list LaserPoint)
  : list LaserPoint :=
  match run !! (length run - 2)%nat with
  | Some beamPoint =>
      if (BeamRepeatThreshold settings <? Z.of_nat (length run - 1))%Z
      then EmitHotBeams (BeamIntensityCount settings) beamPoint []
      else []
  | None => []
  end.

(** What a run that ends with the list adds to the hot-beam list. *)
Definition final_run_hot_beams (settings : LaserSettings)
    (run : list LaserPoint) : list LaserPoint :=
  match run !! (length run - 3)%nat with
  | Some beamPoint =>
      if (BeamRepeatThreshold settings <? Z.of_nat (length run - 2))%Z
      then EmitHotBeams (BeamIntensityCount settings) beamPoint []
      else []
  | None => []
  end.

(** The loop of [GenerateHotBeams] by recursion on the points that follow
    [prev]: [count] is [consecutiveCount], [beam] the point at
    [beamIndices.back()] and [hot] the points emitted so far. *)
Fixpoint hot_beam_scan (settings : LaserSettings) (prev : LaserPoint)
    (rest : list LaserPoint) (count : Z) (beam : option LaserPoint)
    (hot : list LaserPoint) : option (list LaserPoint) :=
  match rest with
  | [] => Some hot
  | curr :: rest' =>
      if stationary prev curr && negb (bool_decide (rest' = []))
      then hot_beam_scan settings curr rest' (count + 1)%Z (Some prev) hot
      else if (BeamRepeatThreshold settings <? count)%Z then
        match beam with
        | Some beamPoint =>
            hot_beam_scan settings curr rest' 0%Z None
              (EmitHotBeams (BeamIntensityCount settings) beamPoint hot)
        | None => None
        end
      else hot_beam_scan settings curr rest' 0%Z None hot
  end.

(** No two neighbours of the list are at the same position. *)
Definition no_adjacent_same_position (l : list LaserPoint) : bool :=
  adjacent_all (fun a b => negb (IsSamePosition b a)) l.
End RunVocabulary.

(** Modelled from the spec: the bodies of [LaserPoint::IsSamePosition] and
    [LaserPoint::IsBlankPoint], whose header [LaserPoint.h] is missing. The
    spec speaks of pairs of points that are non-blank and position-equal: two
    points are at the same position when their X and their Y are equal, and a
    point is blank when its three colour channels are zero. Only the
    evaluations at concrete points use this instance; the theorems hold for
    every implementation of the two members. *)
Definition spec_members : LaserPointMembers := {|
  IsSamePosition a b := feq (LP.X a) (LP.X b) && feq (LP.Y a) (LP.Y b);
  IsBlankPoint p :=
    feq (LP.R p) F32.zero && feq (LP.G p) F32.zero && feq (LP.B p) F32.zero
|}.

(** Concrete points and settings for the evaluations. *)
Definition red_at (x y : Z) : LaserPoint :=
  LP.mk (F32.of_int x) (F32.of_int y) F32.zero
        F32.one F32.zero F32.zero F32.zero.

Definition settings_with (threshold count : Z) : LaserSettings :=
  mkSettings 9 true High 4 (F32.of_int 0) F32.c0_1 threshold count
             F32.one F32.one false.

Definition source_with (settings : LaserSettings) (brush : bool)
    (raw : list LaserPoint) : LaserSource :=
  mkSource 0 settings raw [] [] [] (LineWidth settings)
           (MaxBeamBrush settings) brush.

(** The wire samples of the end-to-end example: X, Y, Focus, R, G, B. *)
Definition example_samples : list float :=
  map F32.of_int [0; 0; 0; 0; 0; 0;  10; 0; 0; 0; 255; 0;  10; 10; 0; 255; 0; 0]%Z.

(** Two wire samples, the second with R = G = B = Focus = 0.5. *)
Definition half_samples : list float :=
  replicate 6 F32.zero
  ++ [F32.zero; F32.zero; F32.half; F32.half; F32.half; F32.half].

(** Two wire samples, the second with R = 200, G = 0.5, B = 1 and Focus 51. *)
Definition bright_samples : list float :=
  replicate 6 F32.zero
  ++ [F32.zero; F32.zero; F32.of_int 51; F32.of_int 200; F32.half; F32.one].

(** * Lemmas *)

(** ** Floating-point literals *)

(** The literals are the binary32 values nearest to their decimal text. *)
Lemma F32_literals :
  F32.one = F32.of_int 1 /\ F32.two = F32.of_int 2 /\ F32.four = F32.of_int 4 /\
  F32.c100 = F32.of_int 100 /\ F32.c255 = F32.of_int 255 /\
  F32.c0_1 = F32.div (F32.of_int 1) (F32.of_int 10) /\
  F32.c0_2 = F32.div (F32.of_int 2) (F32.of_int 10) /\
  F32.c0_01 = F32.div (F32.of_int 1) (F32.of_int 100) /\
  F32.c0_0001 = F32.div (F32.of_int 1) (F32.of_int 10000).
Proof. repeat split; vm_compute; reflexivity. Qed.

Lemma F64_literals :
  F64.one = F64.of_float F32.one /\ F64.two = F64.of_float F32.two /\
  F64.four = F64.of_float F32.four /\
  F64.half = F64.div F64.one F64.two /\
  F64.to_float F64.half = F32.div F32.one F32.two.
Proof. repeat split; vm_compute; reflexivity. Qed.

(** ** Lists *)

Lemma fold_left_snoc_map {A B : Type} (f : A -> B) (l : list A) (acc : list B) :
  fold_left (fun acc x => acc ++ [f x]) l acc = acc ++ map f l.
Proof.
  revert acc. induction l as [|x l IH]; intros acc; simpl.
  - by rewrite app_nil_r.
  - rewrite IH. by rewrite <- app_assoc.
Qed.

(** ** Binary32 division of small integers *)

Local Open Scope Z_scope.

Lemma digits2_pos_size p : digits2_pos p = Pos.size p.
Proof. induction p; cbn; congruence. Qed.

Lemma Zdigits2_bounds (q k : Z) :
  0 < k -> 2 ^ (k - 1) <= q < 2 ^ k -> Zdigits2 q = k.
Proof.
  intros Hk [Hlo Hhi].
  assert (Hq : 0 < q) by (pose proof (Z.pow_pos_nonneg 2 (k - 1)); lia).
  destruct q as [|p|p]; try lia. cbn [Zdigits2]. rewrite digits2_pos_size.
  pose proof (Pos.size_gt p) as Hgt. pose proof (Pos.size_le p) as Hle.
  apply Pos2Z.pos_lt_pos in Hgt. apply Pos2Z.pos_le_pos in Hle.
  rewrite Pos2Z.inj_pow in Hgt, Hle. rewrite Pos2Z.inj_xO in Hle.
  set (s := Zpos (Pos.size p)) in *.
  assert (Hs : 0 < s) by (unfold s; lia).
  change ((2 * 1) ^ s) with (2 ^ s) in Hle. clearbody s.
  destruct (Z.lt_trichotomy s k) as [Hlt|[Heq|Hgt']]; [|done|].
  - assert (2 ^ s <= 2 ^ (k - 1)) by (apply Z.pow_le_mono_r; lia). lia.
  - assert (2 ^ (k + 1) <= 2 ^ s) by (apply Z.pow_le_mono_r; lia).
    rewrite Z.pow_add_r in H by lia. lia.
Qed.

Lemma fexp24 (x : Z) : -125 <= x -> fexp 24 128 x = x - 24.
Proof. intros H. unfold fexp, emin. lia. Qed.

Lemma shr_m_record_of_loc m l : shr_m (shr_record_of_loc m l) = m.
Proof. by destruct l as [|[]]. Qed.

Lemma shr_1_m mrs :
  0 <= shr_m mrs -> shr_m (shr_1 mrs) = shr_m mrs / 2.
Proof.
  destruct mrs as [m r s]. cbn [shr_m]. intros Hm.
  destruct m as [|[p|p|]|p]; cbn [shr_1 shr_m];
    first [reflexivity | Z.div_mod_to_equations; lia].
Qed.

Lemma shr_fexp_24 q E l :
  2 ^ 23 <= q < 2 ^ 24 -> -125 <= E ->
  shr_fexp 24 128 q E l = (shr_record_of_loc q l, E).
Proof.
  intros Hq HE. unfold shr_fexp.
  rewrite (Zdigits2_bounds q 24) by (cbn; lia).
  rewrite fexp24 by lia.
  replace (24 + E - 24 - E) with 0 by lia. reflexivity.
Qed.

Lemma shr_fexp_25 q E l :
  2 ^ 24 <= q < 2 ^ 25 -> -125 <= E ->
  shr_fexp 24 128 q E l = (shr_1 (shr_record_of_loc q l), E + 1).
Proof.
  intros Hq HE. unfold shr_fexp.
  rewrite (Zdigits2_bounds q 25) by (cbn; lia).
  rewrite fexp24 by lia.
  replace (25 + E - 24 - E) with 1 by lia. reflexivity.
Qed.

Lemma round_nearest_even_bounds m l :
  m <= round_nearest_even m l <= m + 1.
Proof.
  unfold round_nearest_even. destruct l as [|[]]; try lia.
  destruct (Z.even m); lia.
Qed.

Lemma round_stage2 (m1 e : Z) :
  2 ^ 23 <= m1 <= 2 ^ 24 -> -125 <= e <= 100 ->
  exists m k,
    (let '(mrs, e'') := shr_fexp 24 128 m1 e loc_Exact in
     match shr_m mrs with
     | Z0 => S754_zero false
     | Zpos m => if e'' <=? 128 - 24 then S754_finite false m e''
                 else S754_infinity false
     | Zneg _ => S754_nan
     end) = S754_finite false m (e + k) /\
    normal24 m /\ 0 <= k <= 1 /\ Zpos m * 2 ^ k = m1.
Proof.
  intros Hm He.
  destruct (Z.eq_dec m1 (2 ^ 24)) as [->|Hne].
  - rewrite shr_fexp_25 by lia.
    exists 8388608%positive, 1. split.
    + cbn [shr_record_of_loc shr_1 shr_m]. 
      change (shr_m (shr_1 {| shr_m := 2 ^ 24; shr_r := false; shr_s := false |}))
        with (Zpos 8388608).
      cbv iota beta. rewrite (proj2 (Z.leb_le _ _)) by lia. reflexivity.
    + unfold normal24. split; [lia|]. split; [lia|]. reflexivity.
  - rewrite shr_fexp_24 by lia. cbn [shr_record_of_loc shr_m].
    destruct m1 as [|p|p]; try lia.
    exists p, 0. rewrite (proj2 (Z.leb_le _ _)) by lia.
    rewrite Z.add_0_r. split; [done|]. unfold normal24.
    split; [lia|]. split; [lia|]. lia.
Qed.

Lemma binary_round_aux_normal (q E : Z) (l : location) :
  2 ^ 23 <= q < 2 ^ 25 -> -125 <= E <= 90 ->
  exists m k,
    binary_round_aux 24 128 false q E l = S754_finite false m (E + k) /\
    normal24 m /\ 0 <= k <= 2 /\ q - 1 <= Zpos m * 2 ^ k <= q + 2.
Proof.
  intros Hq HE. unfold binary_round_aux.
  destruct (Z.lt_ge_cases q (2 ^ 24)) as [Hlt|Hge].
  - rewrite shr_fexp_24 by lia.
    rewrite shr_m_record_of_loc.
    set (m1 := round_nearest_even q _).
    pose proof (round_nearest_even_bounds q
      (loc_of_shr_record (shr_record_of_loc q l))) as Hr. fold m1 in Hr.
    destruct (round_stage2 m1 E) as (m & k & Heq & Hn & Hk & Hv); [lia|lia|].
    exists m, k. split; [exact Heq|]. split; [done|]. split; [lia|]. lia.
  - rewrite shr_fexp_25 by lia.
    set (mrs := shr_1 (shr_record_of_loc q l)).
    assert (Hm0 : shr_m mrs = q / 2).
    { unfold mrs. rewrite shr_1_m; rewrite shr_m_record_of_loc; lia. }
    set (m1 := round_nearest_even (shr_m mrs) _).
    pose proof (round_nearest_even_bounds (shr_m mrs)
      (loc_of_shr_record mrs)) as Hr. fold m1 in Hr. rewrite Hm0 in Hr.
    assert (Hdiv : 2 * (q / 2) <= q < 2 * (q / 2) + 2).
    { pose proof (Z.div_mod q 2 ltac:(lia)).
      pose proof (Z.mod_pos_bound q 2 ltac:(lia)). lia. }
    destruct (round_stage2 m1 (E + 1)) as (m & k & Heq & Hn & Hk & Hv);
      [lia|lia|].
    exists m, (1 + k). replace (E + (1 + k)) with (E + 1 + k) by lia.
    split; [exact Heq|]. split; [done|]. split; [lia|].
    rewrite Z.pow_add_r by lia. change (2 ^ 1) with 2. lia.
Qed.

Lemma div_normal (m1 m2 : positive) (e1 e2 : Z) :
  normal24 m1 -> normal24 m2 -> -40 <= e1 <= 40 -> -40 <= e2 <= 40 ->
  exists m k,
    F32.div (S754_finite false m1 e1) (S754_finite false m2 e2)
      = S754_finite false m (e1 - e2 - 24 + k) /\
    normal24 m /\ 0 <= k <= 2 /\
    Zpos m1 * 2 ^ 24 / Zpos m2 - 1 <= Zpos m * 2 ^ k
      <= Zpos m1 * 2 ^ 24 / Zpos m2 + 2.
Proof.
  intros H1 H2 He1 He2. unfold normal24 in H1, H2.
  unfold F32.div, F32.prec, F32.emax, SFdiv, SFdiv_core_binary.
  rewrite !(Zdigits2_bounds _ 24) by (cbn; lia).
  rewrite fexp24 by lia.
  replace (Z.min (24 + e1 - (24 + e2) - 24) (e1 - e2)) with (e1 - e2 - 24) by lia.
  replace (e1 - e2 - (e1 - e2 - 24)) with 24 by lia.
  rewrite Z.shiftl_mul_pow2 by lia.
  set (a := Zpos m1 * 2 ^ 24).
  assert (Hq : Z.div_eucl a (Zpos m2) = (a / Zpos m2, a mod Zpos m2)).
  { unfold Z.div, Z.modulo. by destruct (Z.div_eucl a (Zpos m2)). }
  rewrite Hq. cbn [xorb].
  apply binary_round_aux_normal; [|lia].
  split.
  - apply Z.div_le_lower_bound; [lia|]. unfold a. nia.
  - apply Z.div_lt_upper_bound; [lia|]. unfold a. nia.
Qed.

Lemma flt_normal (m1 m2 : positive) (e1 e2 : Z) :
  normal24 m1 -> normal24 m2 -> -48 <= e1 -> -48 <= e2 ->
  scaled48 (S754_finite false m1 e1) < scaled48 (S754_finite false m2 e2) ->
  flt (S754_finite false m1 e1) (S754_finite false m2 e2) = true.
Proof.
  unfold normal24, scaled48, flt, SFltb, SFcompare.
  intros H1 H2 He1 He2 Hlt.
  destruct (Z.compare_spec e1 e2) as [->|Hl|Hg]; [|done|].
  - assert (Hp : 0 < 2 ^ (e2 + 48)) by (apply Z.pow_pos_nonneg; lia).
    assert (Hm : Zpos m1 < Zpos m2) by nia.
    rewrite Pos.compare_cont_spec. cbn [Pos.switch_Eq].
    by rewrite (proj2 (Pos.compare_lt_iff m1 m2) Hm).
  - exfalso.
    assert (Hp : 0 < 2 ^ (e2 + 48)) by (apply Z.pow_pos_nonneg; lia).
    assert (Hpow : 2 * 2 ^ (e2 + 48) <= 2 ^ (e1 + 48)).
    { replace (2 * 2 ^ (e2 + 48)) with (2 ^ (e2 + 48 + 1))
        by (rewrite Z.pow_add_r by lia; lia).
      apply Z.pow_le_mono_r; lia. }
    nia.
Qed.

Lemma forall_from_spec n d check x :
  forall_from n d check = true -> d <= x < d + Z.of_nat n -> check x = true.
Proof.
  revert d. induction n as [|n IH]; intros d Hall Hx; [lia|].
  cbn [forall_from] in Hall. apply andb_true_iff in Hall as [Hd Hrest].
  destruct (Z.eq_dec x d) as [->|Hne]; [done|].
  apply (IH (d + 1)); [done|lia].
Qed.

Lemma small_ints_checked :
  forall_from (Z.to_nat 9999) 1
    (fun d => of_int_exact d && first_level_above_floor d && last_level_one d)
  = true.
Proof. vm_compute. reflexivity. Qed.

Lemma small_int_facts d :
  1 <= d <= 9999 ->
  of_int_exact d = true /\ first_level_above_floor d = true /\
  last_level_one d = true.
Proof.
  intros Hd. pose proof (forall_from_spec _ _ _ d small_ints_checked) as H.
  cbv beta in H. specialize (H ltac:(lia)).
  apply andb_true_iff in H as [H H3]. apply andb_true_iff in H as [H1 H2]. done.
Qed.

Lemma of_int_shape d :
  1 <= d <= 9999 ->
  exists m e, F32.of_int d = S754_finite false m e /\ normal24 m /\
              -23 <= e <= 0 /\ Zpos m = d * 2 ^ (- e).
Proof.
  intros Hd. destruct (small_int_facts d Hd) as [H _].
  unfold of_int_exact in H.
  destruct (F32.of_int d) as [| | |[] m e]; try done.
  exists m, e. split; [done|].
  repeat (apply andb_true_iff in H as [H ?]).
  unfold normal24. lia.
Qed.

Lemma quotient_bounds (j d : Z) :
  1 <= j <= d -> d <= 9999 ->
  exists m e,
    F32.div (F32.of_int j) (F32.of_int d) = S754_finite false m e /\
    normal24 m /\ -48 <= e /\
    j * 2 ^ 48 - 2 ^ 25 * d < d * scaled48 (S754_finite false m e)
      <= j * 2 ^ 48 + 2 ^ 25 * d.
Proof.
  intros Hj Hd.
  destruct (of_int_shape j ltac:(lia)) as (mj & ej & -> & Hnj & Hej & Hmj).
  destruct (of_int_shape d ltac:(lia)) as (md & ed & -> & Hnd & Hed & Hmd).
  destruct (div_normal mj md ej ed Hnj Hnd ltac:(lia) ltac:(lia))
    as (m & k & -> & Hn & Hk & Hv).
  exists m, (ej - ed - 24 + k). split; [done|]. split; [done|].
  split; [lia|].
  unfold scaled48.
  replace (ej - ed - 24 + k + 48) with (k + ((ej + 24) + (- ed))) by lia.
  rewrite !Z.pow_add_r by lia.
  set (A := 2 ^ (- ej)) in *. set (A' := 2 ^ (ej + 24)).
  set (B := 2 ^ (- ed)) in *. set (K := 2 ^ k) in *.
  set (Q := Zpos mj * 2 ^ 24 / Zpos md) in *.
  assert (HA : A * A' = 2 ^ 24).
  { unfold A, A'. rewrite <- Z.pow_add_r by lia. f_equal. lia. }
  assert (HApos : 0 < A) by (apply Z.pow_pos_nonneg; lia).
  assert (HA'pos : 0 < A') by (apply Z.pow_pos_nonneg; lia).
  assert (HBpos : 0 < B) by (apply Z.pow_pos_nonneg; lia).
  assert (HBA : B <= A).
  { destruct (Z.le_gt_cases (- ed) (- ej)) as [Hle|Hgt].
    - apply Z.pow_le_mono_r; lia.
    - exfalso.
      assert (2 * A <= B).
      { replace (2 * A) with (2 ^ (- ej + 1))
          by (rewrite Z.pow_add_r by lia; unfold A; lia).
        apply Z.pow_le_mono_r; lia. }
      unfold normal24 in Hnj, Hnd. nia. }
  assert (HQ1 : Zpos md * Q <= Zpos mj * 2 ^ 24)
    by (apply Z.mul_div_le; lia).
  assert (HQ2 : Zpos mj * 2 ^ 24 < Zpos md * (Q + 1)).
  { replace (Q + 1) with (Z.succ Q) by lia. apply Z.mul_succ_div_gt. lia. }
  rewrite Hmj in HQ1, HQ2. rewrite Hmd in HQ1, HQ2.
  assert (HP : A' * B <= 2 ^ 24) by nia.
  assert (E1 : d * B * Q * A' <= j * 2 ^ 48).
  { replace (j * 2 ^ 48) with (j * A * 2 ^ 24 * A').
    - apply Z.mul_le_mono_nonneg_r; lia.
    - replace (2 ^ 48) with ((A * A') * 2 ^ 24) by (by rewrite HA).
      ring. }
  assert (E2 : j * 2 ^ 48 < d * B * (Q + 1) * A').
  { replace (j * 2 ^ 48) with (j * A * 2 ^ 24 * A').
    - apply Z.mul_lt_mono_pos_r; lia.
    - replace (2 ^ 48) with ((A * A') * 2 ^ 24) by (by rewrite HA).
      ring. }
  assert (Hd0 : 0 < d) by lia.
  assert (HdP : d * (A' * B) <= d * 2 ^ 24) by (apply Z.mul_le_mono_nonneg_l; lia).
  set (V := Zpos m * K) in *.
  replace (d * (Zpos m * (K * (A' * B)))) with (d * V * (A' * B))
    by (unfold V; ring).
  assert (HPpos : 0 < A' * B) by nia.
  split.
  - assert (d * (Q - 1) * (A' * B) <= d * V * (A' * B)).
    { apply Z.mul_le_mono_nonneg_r; [lia|]. apply Z.mul_le_mono_nonneg_l; lia. }
    replace (d * (Q - 1) * (A' * B))
      with (d * B * (Q + 1) * A' - 2 * (d * (A' * B))) in H by ring.
    change (2 ^ 25) with (2 * 2 ^ 24). lia.
  - assert (d * V * (A' * B) <= d * (Q + 2) * (A' * B)).
    { apply Z.mul_le_mono_nonneg_r; [lia|]. apply Z.mul_le_mono_nonneg_l; lia. }
    replace (d * (Q + 2) * (A' * B))
      with (d * B * Q * A' + 2 * (d * (A' * B))) in H by ring.
    change (2 ^ 25) with (2 * 2 ^ 24). lia.
Qed.

Lemma adjacent_all_map_seq {A : Type} (rel : A -> A -> bool) (f : nat -> A)
    (a n : nat) :
  (forall j, (a <= j)%nat -> (S j < a + n)%nat -> rel (f j) (f (S j)) = true) ->
  adjacent_all rel (map f (seq a n)) = true.
Proof.
  revert a. induction n as [|[|n] IH]; intros a H; [done|done|].
  change (adjacent_all rel (map f (seq a (S (S n)))))
    with (rel (f a) (f (S a)) && adjacent_all rel (map f (seq (S a) (S n)))).
  rewrite H by lia. apply IH. intros j H1 H2. apply H; lia.
Qed.

Lemma last_map_seq {A : Type} (f : nat -> A) (n : nat) :
  last (map f (seq 0 (S n))) = Some (f n).
Proof. rewrite seq_S, map_app. cbn [map]. apply last_snoc. Qed.

Section Levels.
Variable count : Z.
Hypothesis count_range : 2 <= count <= 10000.

Let quotient (j : Z) : float :=
  F32.div (F32.of_int j) (F32.of_int (count - 1)).

Lemma quotient_mono j1 j2 :
  1 <= j1 < j2 -> j2 <= count - 1 ->
  scaled48 (quotient j1) < scaled48 (quotient j2) /\
  flt (quotient j1) (quotient j2) = true.
Proof.
  intros H1 H2. unfold quotient.
  destruct (quotient_bounds j1 (count - 1)) as (m1 & e1 & -> & Hn1 & He1 & Hb1);
    [lia|lia|].
  destruct (quotient_bounds j2 (count - 1)) as (m2 & e2 & -> & Hn2 & He2 & Hb2);
    [lia|lia|].
  assert (Hlt : scaled48 (S754_finite false m1 e1)
                < scaled48 (S754_finite false m2 e2)).
  { assert (2 ^ 26 * (count - 1) < 2 ^ 48) by lia.
    assert ((j1 + 1) * 2 ^ 48 <= j2 * 2 ^ 48) by lia.
    change (2 ^ 26) with (2 * 2 ^ 25) in H. nia. }
  split; [done|]. by apply flt_normal.
Qed.

Lemma floor_below_quotient j :
  1 <= j <= count - 1 -> flt F32.c0_0001 (quotient j) = true.
Proof.
  intros Hj.
  destruct (small_int_facts (count - 1) ltac:(lia)) as (_ & Hfirst & _).
  unfold first_level_above_floor in Hfirst. apply Z.ltb_lt in Hfirst.
  fold (quotient 1) in Hfirst.
  assert (Hs : scaled48 F32.c0_0001 < scaled48 (quotient j)).
  { destruct (Z.eq_dec j 1) as [->|Hne]; [done|].
    destruct (quotient_mono 1 j) as [Hm _]; [lia|lia|]. lia. }
  unfold quotient in *.
  destruct (quotient_bounds j (count - 1)) as (m & e & Heq & Hn & He & _);
    [lia|lia|].
  rewrite Heq in *.
  apply flt_normal; first [done | unfold normal24; lia].
Qed.

Lemma HotBeamLevel_zero : HotBeamLevel count 0 = F32.c0_0001.
Proof.
  unfold HotBeamLevel.
  destruct (of_int_shape (count - 1)) as (m & e & -> & _); [lia|].
  reflexivity.
Qed.

Lemma HotBeamLevel_quotient j :
  1 <= j <= count - 1 -> HotBeamLevel count j = quotient j.
Proof.
  intros Hj. unfold HotBeamLevel, std_max.
  fold (quotient j). by rewrite floor_below_quotient.
Qed.

Lemma hot_beam_levels_rise :
  adjacent_all flt (hot_beam_levels count) = true /\
  last (hot_beam_levels count) = Some F32.one.
Proof.
  split.
  - unfold hot_beam_levels. apply adjacent_all_map_seq.
    intros j _ Hj.
    destruct j as [|j].
    + change (Z.of_nat 0) with 0. rewrite HotBeamLevel_zero.
      rewrite HotBeamLevel_quotient by lia.
      apply floor_below_quotient. lia.
    + rewrite !HotBeamLevel_quotient by lia.
      apply quotient_mono; lia.
  - unfold hot_beam_levels.
    replace (Z.to_nat count) with (S (Z.to_nat (count - 1))) by lia.
    rewrite last_map_seq. f_equal.
    rewrite HotBeamLevel_quotient by lia. unfold quotient.
    rewrite Z2Nat.id by lia.
    destruct (small_int_facts (count - 1) ltac:(lia)) as (_ & _ & Hlast).
    unfold last_level_one in Hlast. by apply bool_decide_eq_true in Hlast.
Qed.
End Levels.

Local Close Scope Z_scope.

(** ** The loop of GenerateHotBeams *)

Section HotBeams.
Context {members : LaserPointMembers}.
Variable settings : LaserSettings.

Lemma EmitHotBeams_map count beamPoint hot :
  EmitHotBeams count beamPoint hot =
  hot ++ map (fun j => set_Z beamPoint (HotBeamLevel count (Z.of_nat j)))
             (seq 0 (Z.to_nat count)).
Proof. unfold EmitHotBeams. apply fold_left_snoc_map. Qed.

Lemma EmitHotBeams_app count beamPoint hot :
  EmitHotBeams count beamPoint hot = hot ++ EmitHotBeams count beamPoint [].
Proof. by rewrite !EmitHotBeams_map. Qed.

Lemma fold_step_None (points : list LaserPoint) (l : list nat) :
  fold_left
    (fun st i =>
       match st with
       | Some st => GenerateHotBeams_step settings points i st
       | None => None
       end) l None = None.
Proof. induction l; simpl; auto. Qed.

Lemma GenerateHotBeams_fold_scan pre prev rest st :
  hotBeamPoints <$>
    fold_left
      (fun st i =>
         match st with
         | Some st => GenerateHotBeams_step settings (pre ++ prev :: rest) i st
         | None => None
         end)
      (seq (S (length pre)) (length rest)) (Some st)
  = hot_beam_scan settings prev rest (consecutiveCount st)
      (last (beamIndices st) ≫= fun k => (pre ++ prev :: rest) !! k)
      (hotBeamPoints st).
Proof.
  revert pre prev st. induction rest as [|curr rest IH]; intros pre prev st.
  - reflexivity.
  - cbn [length seq fold_left hot_beam_scan].
    assert (Hcurr : (pre ++ prev :: curr :: rest) !! S (length pre) = Some curr).
    { rewrite lookup_app_r by lia.
      replace (S (length pre) - length pre) with 1 by lia. reflexivity. }
    assert (Hprev : (pre ++ prev :: curr :: rest) !! length pre = Some prev).
    { rewrite lookup_app_r by lia. rewrite Nat.sub_diag. reflexivity. }
    assert (Hguard : (S (length pre) <? length (pre ++ prev :: curr :: rest) - 1)
                     = negb (bool_decide (rest = []))).
    { rewrite length_app. cbn [length].
      destruct rest; cbn [length bool_decide negb].
      - rewrite bool_decide_eq_true_2 by done. apply Nat.ltb_ge. lia.
      - rewrite bool_decide_eq_false_2 by done. apply Nat.ltb_lt. lia. }
    unfold GenerateHotBeams_step at 2.
    replace (S (length pre) - 1) with (length pre) by lia.
    rewrite Hcurr, Hprev, Hguard.
    fold (stationary prev curr).
    specialize (IH (pre ++ [prev]) curr).
    rewrite length_app in IH. cbn [length] in IH.
    replace (length pre + 1) with (S (length pre)) in IH by lia.
    rewrite <- app_assoc in IH. cbn [app] in IH.
    destruct (stationary prev curr && negb (bool_decide (rest = []))) eqn:Hst.
    + assert (Hne : (S (length pre) =? length (pre ++ prev :: curr :: rest) - 1) = false).
      { apply andb_true_iff in Hst as [_ Hr]. rewrite <- Hguard in Hr.
        apply Nat.ltb_lt in Hr. apply Nat.eqb_neq. lia. }
      rewrite Hne. rewrite IH. cbn [consecutiveCount beamIndices hotBeamPoints].
      rewrite last_snoc. cbn. rewrite Hprev. reflexivity.
    + destruct (BeamRepeatThreshold settings <? consecutiveCount st)%Z.
      * destruct (last (beamIndices st)) as [k|]; cbn [mbind option_bind].
        -- destruct ((pre ++ prev :: curr :: rest) !! k) as [b|].
           ++ rewrite IH. reflexivity.
           ++ rewrite fold_step_None. reflexivity.
        -- rewrite fold_step_None. reflexivity.
      * rewrite IH. reflexivity.
Qed.

Lemma GenerateHotBeams_scan p rest :
  GenerateHotBeams settings (p :: rest) = hot_beam_scan settings p rest 0 None [].
Proof.
  unfold GenerateHotBeams. destruct rest as [|q rest]; [reflexivity|].
  cbn [length Nat.ltb Nat.leb]. 
  replace (S (S (length rest)) - 1) with (length (q :: rest)) by (cbn; lia).
  apply (GenerateHotBeams_fold_scan [] p (q :: rest) (mkBeamScan [] 0 [])).
Qed.

Lemma hot_beam_scan_acc prev rest count beam hot :
  hot_beam_scan settings prev rest count beam hot =
  (hot ++.) <$> hot_beam_scan settings prev rest count beam [].
Proof.
  revert prev count beam hot.
  induction rest as [|curr rest IH]; intros prev count beam hot.
  - cbn. by rewrite app_nil_r.
  - cbn [hot_beam_scan].
    destruct (stationary prev curr && negb (bool_decide (rest = []))); [apply IH|].
    destruct (BeamRepeatThreshold settings <? count)%Z; [|apply IH].
    destruct beam as [b|]; [|reflexivity].
    rewrite IH. rewrite (IH _ _ _ (EmitHotBeams _ b [])).
    rewrite (EmitHotBeams_app _ b hot).
    destruct (hot_beam_scan settings curr rest 0 None []) as [h|]; cbn; [|done].
    by rewrite app_assoc.
Qed.

Lemma hot_beam_scan_prefix prev mid a r0 tail count beam hot :
  last (prev :: mid) = Some a ->
  stationary a r0 = false ->
  hot_beam_scan settings prev (mid ++ r0 :: tail) count beam hot =
  hot_beam_scan settings prev (mid ++ [r0]) count beam hot
    ≫= hot_beam_scan settings r0 tail 0 None.
Proof.
  revert prev count beam hot.
  induction mid as [|m mid IH]; intros prev count beam hot Hlast Hns.
  - cbn in Hlast. injection Hlast as ->.
    cbn [app hot_beam_scan]. rewrite Hns. cbn [andb].
    destruct (BeamRepeatThreshold settings <? count)%Z; [|reflexivity].
    destruct beam; reflexivity.
  - cbn [app hot_beam_scan].
    assert (Hl : last (m :: mid) = Some a) by (by destruct mid).
    rewrite !bool_decide_eq_false_2 by (by destruct mid).
    destruct (stationary prev m && negb false); [by apply IH|].
    destruct (BeamRepeatThreshold settings <? count)%Z; [|by apply IH].
    destruct beam; [by apply IH|reflexivity].
Qed.

(** The beam point of a run in progress: the point before the current one. *)
Lemma hot_beam_scan_run r0 rs q rest a count beam hot :
  stationary_run (r0 :: rs) = true ->
  last (r0 :: rs) = Some a ->
  stationary a q = false ->
  hot_beam_scan settings r0 (rs ++ q :: rest) count beam hot =
  if (BeamRepeatThreshold settings <? count + Z.of_nat (length rs))%Z then
    match (if bool_decide (rs = []) then beam
           else (r0 :: rs) !! (length rs - 1)) with
    | Some beamPoint =>
        hot_beam_scan settings q rest 0 None
          (EmitHotBeams (BeamIntensityCount settings) beamPoint hot)
    | None => None
    end
  else hot_beam_scan settings q rest 0 None hot.
Proof.
  revert r0 count beam.
  induction rs as [|r1 rs IH]; intros r0 count beam Hrun Hlast Hns.
  - cbn in Hlast. injection Hlast as ->.
    cbn [app hot_beam_scan length]. rewrite Hns. cbn [andb].
    rewrite Z.add_0_r. rewrite bool_decide_eq_true_2 by done. reflexivity.
  - cbn [app hot_beam_scan].
    unfold stationary_run in Hrun. cbn [adjacent_all] in Hrun.
    apply andb_true_iff in Hrun as [H01 Hrun].
    rewrite H01. rewrite bool_decide_eq_false_2 by (by destruct rs).
    cbn [andb negb].
    assert (Hl : last (r1 :: rs) = Some a) by (by destruct rs).
    rewrite (IH r1 (count + 1)%Z (Some r0) Hrun Hl Hns).
    cbn [length].
    replace (count + 1 + Z.of_nat (length rs))%Z
      with (count + Z.of_nat (S (length rs)))%Z by lia.
    rewrite (bool_decide_eq_false_2 (r1 :: rs = [])) by done.
    destruct rs as [|r2 rs]; [reflexivity|].
    rewrite bool_decide_eq_false_2 by done.
    cbn [length]. replace (S (S (length rs)) - 1) with (S (S (length rs) - 1)) by lia.
    reflexivity.
Qed.

Lemma hot_beam_scan_run_end r0 rs count beam hot :
  stationary_run (r0 :: rs) = true ->
  rs <> [] ->
  hot_beam_scan settings r0 rs count beam hot =
  if (BeamRepeatThreshold settings <? count + Z.of_nat (length rs - 1))%Z then
    match (if bool_decide (length rs = 1) then beam
           else (r0 :: rs) !! (length rs - 2)) with
    | Some beamPoint =>
        Some (EmitHotBeams (BeamIntensityCount settings) beamPoint hot)
    | None => None
    end
  else Some hot.
Proof.
  revert r0 count beam.
  induction rs as [|r1 rs IH]; intros r0 count beam Hrun Hne; [done|].
  cbn [hot_beam_scan].
  unfold stationary_run in Hrun. cbn [adjacent_all] in Hrun.
  apply andb_true_iff in Hrun as [H01 Hrun]. rewrite H01.
  destruct rs as [|r2 rs].
  - rewrite bool_decide_eq_true_2 by done. cbn [andb negb length Nat.sub].
    rewrite Z.add_0_r. rewrite bool_decide_eq_true_2 by done.
    destruct (BeamRepeatThreshold settings <? count)%Z; [|reflexivity].
    destruct beam; reflexivity.
  - rewrite bool_decide_eq_false_2 by done. cbn [andb negb].
    rewrite (IH r1 (count + 1)%Z (Some r0) Hrun) by done.
    cbn [length].
    replace (count + 1 + Z.of_nat (S (length rs) - 1))%Z
      with (count + Z.of_nat (S (S (length rs)) - 1))%Z by lia.
    rewrite (bool_decide_eq_false_2 (S (S (length rs)) = 1)) by lia.
    destruct rs as [|r3 rs].
    + rewrite bool_decide_eq_true_2 by done. reflexivity.
    + rewrite bool_decide_eq_false_2 by (cbn; lia).
      cbn [length]. 
      replace (S (S (S (length rs))) - 2) with (S (S (S (length rs)) - 2)) by lia.
      reflexivity.
Qed.

Lemma GenerateHotBeams_closed_run pre run q rest :
  (0 <= BeamRepeatThreshold settings)%Z ->
  run <> [] ->
  stationary_run run = true ->
  run_boundary pre run = true ->
  run_boundary run [q] = true ->
  GenerateHotBeams settings (pre ++ run ++ q :: rest) =
    h1 ← GenerateHotBeams settings (pre ++ take 1 run);
    h3 ← GenerateHotBeams settings (q :: rest);
    Some (h1 ++ run_hot_beams settings run ++ h3).
Proof.
  intros HT Hne Hrun Hleft Hright.
  destruct run as [|r0 rs]; [done|]. clear Hne.
  destruct (last (r0 :: rs)) as [a|] eqn:Hlast; [|by apply last_None in Hlast].
  assert (Hns : stationary a q = false).
  { unfold run_boundary in Hright. rewrite Hlast in Hright. cbn in Hright.
    by destruct (stationary a q). }
  assert (Hmid : forall hot,
    hot_beam_scan settings r0 (rs ++ q :: rest) 0 None hot =
    (fun h3 => hot ++ run_hot_beams settings (r0 :: rs) ++ h3) <$>
      hot_beam_scan settings q rest 0 None []).
  { intros hot.
    rewrite (hot_beam_scan_run r0 rs q rest a 0 None hot Hrun Hlast Hns).
    unfold run_hot_beams. cbn [length].
    replace (S (length rs) - 1) with (length rs) by lia.
    replace (0 + Z.of_nat (length rs))%Z with (Z.of_nat (length rs)) by lia.
    destruct rs as [|r1 rs].
    - cbn [length]. replace (BeamRepeatThreshold settings <? Z.of_nat 0)%Z
        with false by (symmetry; apply Z.ltb_ge; lia).
      cbn. rewrite hot_beam_scan_acc.
      destruct (hot_beam_scan settings q rest 0 None []); cbn; [|done].
      reflexivity.
    - rewrite bool_decide_eq_false_2 by done. cbn [length].
      replace (S (S (length rs)) - 2) with (S (length rs) - 1) by lia.
      destruct ((r0 :: r1 :: rs) !! (S (length rs) - 1)) as [b|] eqn:Hb.
      + destruct (BeamRepeatThreshold settings <? Z.of_nat (S (length rs)))%Z.
        * rewrite hot_beam_scan_acc. rewrite (EmitHotBeams_app _ b hot).
          destruct (hot_beam_scan settings q rest 0 None []); cbn; [|done].
          by rewrite <- app_assoc.
        * rewrite hot_beam_scan_acc.
          destruct (hot_beam_scan settings q rest 0 None []); cbn; done.
      + apply lookup_ge_None in Hb. cbn [length] in Hb. lia. }
  rewrite (GenerateHotBeams_scan q rest).
  replace (take 1 (r0 :: rs)) with [r0] by (by destruct rs).
  destruct pre as [|p0 pre].
  - cbn [app]. rewrite GenerateHotBeams_scan, Hmid.
    cbn. destruct (hot_beam_scan settings q rest 0 None []); reflexivity.
  - cbn [app]. rewrite !GenerateHotBeams_scan.
    destruct (last (p0 :: pre)) as [b|] eqn:Hlp; [|by apply last_None in Hlp].
    assert (Hnl : stationary b r0 = false).
    { unfold run_boundary in Hleft. rewrite Hlp in Hleft. cbn in Hleft.
      by destruct (stationary b r0). }
    rewrite (hot_beam_scan_prefix p0 pre b r0 _ 0 None [] Hlp Hnl).
    destruct (hot_beam_scan settings p0 (pre ++ [r0]) 0 None []) as [h1|];
      cbn; [|done].
    rewrite Hmid.
    destruct (hot_beam_scan settings q rest 0 None []); reflexivity.
Qed.

Lemma run_hot_beams_short run :
  (Z.of_nat (length run - 1) <= BeamRepeatThreshold settings)%Z ->
  run_hot_beams settings run = [].
Proof.
  intros H. unfold run_hot_beams.
  destruct (run !! (length run - 2)); [|done].
  by rewrite (proj2 (Z.ltb_ge _ _) H).
Qed.

Lemma run_hot_beams_long run :
  run <> [] ->
  (BeamRepeatThreshold settings < Z.of_nat (length run - 1))%Z ->
  exists beamPoint,
    run !! (length run - 2) = Some beamPoint /\
    run_hot_beams settings run =
      map (set_Z beamPoint) (hot_beam_levels (BeamIntensityCount settings)).
Proof.
  intros Hne H. unfold run_hot_beams.
  destruct (run !! (length run - 2)) as [b|] eqn:Hb.
  - exists b. split; [done|].
    rewrite (proj2 (Z.ltb_lt _ _) H).
    rewrite EmitHotBeams_map. cbn [app]. unfold hot_beam_levels.
    by rewrite map_map.
  - apply lookup_ge_None in Hb. destruct run; [done|]. cbn [length] in Hb. lia.
Qed.
End HotBeams.

Lemma adjacent_all_snoc {A : Type} (rel : A -> A -> bool) (l : list A) (x : A) :
  adjacent_all rel (l ++ [x]) =
  adjacent_all rel l && match last l with Some b => rel b x | None => true end.
Proof.
  induction l as [|a [|b l] IH].
  - reflexivity.
  - cbn. by rewrite !andb_true_r.
  - change (adjacent_all rel ((a :: b :: l) ++ [x]))
      with (rel a b && adjacent_all rel ((b :: l) ++ [x])).
    rewrite IH. cbn [adjacent_all]. rewrite last_cons_cons.
    by rewrite andb_assoc.
Qed.

Section Downsample.
Variable points : list LaserPoint.
Variable k : nat.
Hypothesis k_pos : 0 < k.

Lemma DownsamplePoints_loop_spec fuel i result :
  length points - i <= fuel ->
  exists ext,
    DownsamplePoints_loop fuel points k i result = result ++ ext /\
    forall j, ext !! j = points !! (i + j * k).
Proof.
  revert i result. induction fuel as [|fuel IH]; intros i result Hfuel.
  - exists []. split; [by rewrite app_nil_r|].
    intros j. symmetry. apply lookup_ge_None. nia.
  - cbn [DownsamplePoints_loop].
    destruct (i <? length points) eqn:Hi.
    + apply Nat.ltb_lt in Hi.
      destruct (lookup_lt_is_Some_2 points i Hi) as [p Hp]. rewrite Hp.
      destruct (IH (i + k) (result ++ [p])) as (ext & Heq & Hext); [lia|].
      exists (p :: ext). split.
      * rewrite Heq. by rewrite <- app_assoc.
      * intros [|j]; cbn.
        -- by rewrite Nat.add_0_r.
        -- rewrite Hext. f_equal. lia.
    + apply Nat.ltb_ge in Hi. exists []. split; [by rewrite app_nil_r|].
      intros j. symmetry. apply lookup_ge_None. nia.
Qed.
End Downsample.

Lemma DownsamplePoints_lookup points factor j :
  (1 < factor)%Z ->
  DownsamplePoints points factor !! j = points !! (j * Z.to_nat factor).
Proof.
  intros Hf. unfold DownsamplePoints.
  rewrite (proj2 (Z.leb_gt _ _) Hf). cbn [orb].
  destruct (length points =? 0) eqn:Hn.
  - apply Nat.eqb_eq in Hn. apply length_zero_iff_nil in Hn. by subst.
  - destruct (DownsamplePoints_loop_spec points (Z.to_nat factor) ltac:(lia)
                (length points) 0 []) as (ext & Heq & Hext); [lia|].
    rewrite Heq. cbn [app]. apply Hext.
Qed.

Lemma length_by_lookup {A : Type} (l : list A) (m : nat) :
  l !! m = None -> (forall i, i < m -> is_Some (l !! i)) -> length l = m.
Proof.
  intros Hnone Hsome. apply lookup_ge_None in Hnone.
  destruct (decide (length l = m)) as [|Hne]; [done|].
  assert (Hlt : m - 1 < m) by lia.
  apply Hsome in Hlt. apply lookup_lt_is_Some in Hlt. lia.
Qed.

Lemma DownsamplePoints_length points factor :
  (1 < factor)%Z ->
  length (DownsamplePoints points factor) =
  (length points + Z.to_nat factor - 1) / Z.to_nat factor.
Proof.
  intros Hf. set (k := Z.to_nat factor). assert (Hk : 1 < k) by lia.
  set (n := length points). set (m := (n + k - 1) / k).
  assert (Hlo : k * m <= n + k - 1) by (apply Nat.Div0.mul_div_le).
  assert (Hhi : n + k - 1 < k * S m) by (apply Nat.mul_succ_div_gt; lia).
  apply length_by_lookup.
  - rewrite DownsamplePoints_lookup by done. apply lookup_ge_None. fold n k. nia.
  - intros i Hi. rewrite DownsamplePoints_lookup by done.
    apply lookup_lt_is_Some. fold n k. nia.
Qed.

Section Dedup.
Context {members : LaserPointMembers}.

Lemma RemoveDuplicatePoints_fold others result first :
  head result = Some first ->
  no_adjacent_same_position result = true ->
  let r :=
    fold_left
      (fun result p =>
         match last result with
         | Some back =>
             if negb (IsSamePosition p back) then result ++ [p] else result
         | None => result
         end) others result in
  head r = Some first /\ no_adjacent_same_position r = true /\
  length r <= length result + length others.
Proof.
  revert result. induction others as [|p others IH]; intros result Hhd Hadj.
  - cbn. split; [done|]. split; [done|lia].
  - cbn [fold_left].
    destruct (last result) as [back|] eqn:Hlast.
    + destruct (negb (IsSamePosition p back)) eqn:Hsame.
      * destruct (IH (result ++ [p])) as (H1 & H2 & H3).
        -- destruct result; [done|]. done.
        -- unfold no_adjacent_same_position in *.
           rewrite adjacent_all_snoc, Hadj, Hlast. done.
        -- rewrite length_app in H3. cbn [length] in *. 
           split; [done|]. split; [done|lia].
      * destruct (IH result Hhd Hadj) as (H1 & H2 & H3).
        split; [done|]. split; [done|cbn [length]; lia].
    + destruct (IH result Hhd Hadj) as (H1 & H2 & H3).
      split; [done|]. split; [done|cbn [length]; lia].
Qed.
End Dedup.

Lemma lagged_point_grow floatData n i :
  S i < n -> lagged_point floatData (S n) i = lagged_point floatData n i.
Proof.
  intros H. unfold lagged_point.
  rewrite (proj2 (Nat.ltb_lt (S i) n) H).
  by rewrite (proj2 (Nat.ltb_lt (S i) (S n)) ltac:(lia)).
Qed.

Lemma lookup_map_seq {A : Type} (f : nat -> A) (n j : nat) :
  map f (seq 0 n) !! j = if (j <? n)%nat then Some (f j) else None.
Proof.
  change (map f (seq 0 n)) with (f <$> seq 0 n). rewrite list_lookup_fmap.
  destruct (j <? n) eqn:H.
  - apply Nat.ltb_lt in H. by rewrite lookup_seq_lt.
  - apply Nat.ltb_ge in H. by rewrite lookup_seq_ge.
Qed.

Lemma ParsePacket_step_points floatData n :
  ParsePacket_step floatData (map (lagged_point floatData n) (seq 0 n))
    (Z.of_nat n)
  = map (lagged_point floatData (S n)) (seq 0 (S n)).
Proof.
  unfold ParsePacket_step.
  destruct (ParsePacket_color _ _ _) as [[R G] B] eqn:Hcol.
  apply list_eq. intros j. rewrite lookup_map_seq.
  assert (Hlen : length (map (lagged_point floatData n) (seq 0 n)) = n)
    by (by rewrite length_map, length_seq).
  destruct (0 <? Z.of_nat n)%Z eqn:Hn.
  - apply Z.ltb_lt in Hn.
    rewrite length_app, Hlen. cbn [length].
    replace (n + 1 - 2) with (n - 1) by lia.
    destruct (decide (j = n - 1)) as [->|Hj].
    + rewrite list_lookup_alter_eq.
      rewrite lookup_app_l by lia.
      rewrite lookup_map_seq.
      rewrite (proj2 (Nat.ltb_lt (n - 1) n)) by lia.
      rewrite (proj2 (Nat.ltb_lt (n - 1) (S n))) by lia. cbn.
      f_equal. unfold lagged_point.
      replace (S (n - 1)) with n by lia.
      rewrite Nat.ltb_irrefl.
      rewrite (proj2 (Nat.ltb_lt n (S n))) by lia.
      unfold wire_R, wire_G, wire_B, wire_Focus. rewrite Hcol. reflexivity.
    + rewrite list_lookup_alter_ne by done.
      destruct (decide (j < n)) as [Hlt|Hge].
      * rewrite lookup_app_l by lia.
        rewrite lookup_map_seq.
        rewrite (proj2 (Nat.ltb_lt j n)) by lia.
        rewrite (proj2 (Nat.ltb_lt j (S n))) by lia.
        f_equal. symmetry. apply lagged_point_grow. lia.
      * rewrite lookup_app_r by lia. rewrite Hlen.
        destruct (decide (j = n)) as [->|Hne].
        -- rewrite Nat.sub_diag.
           rewrite (proj2 (Nat.ltb_lt n (S n))) by lia. cbn.
           f_equal. unfold lagged_point. rewrite Nat.ltb_irrefl.
           reflexivity.
        -- rewrite (proj2 (Nat.ltb_ge j (S n))) by lia.
           destruct (j - n) as [|[|]] eqn:E; try lia; reflexivity.
  - apply Z.ltb_ge in Hn. assert (n = 0) as -> by lia.
    cbn. destruct j as [|[|j]]; cbn; reflexivity.
Qed.

Lemma ParsePacket_loop_points floatData n :
  fold_left (ParsePacket_step floatData) (Z.of_nat <$> seq 0 n) []
  = map (lagged_point floatData n) (seq 0 n).
Proof.
  induction n as [|n IH]; [reflexivity|].
  rewrite <- ParsePacket_step_points, <- IH.
  rewrite seq_S. cbn [Nat.add]. rewrite fmap_app, fold_left_app.
  reflexivity.
Qed.

Section ParsePacketFacts.
Context {Dll : Type}.
Variable proto : LaserProtocol Dll.
Variables (dll : Dll) (data : list Z) (len ext dev : Z).
Variable pts0 : list LaserPoint.

Lemma ParsePacket_ok_inv :
  parsed_ok (ParsePacket proto dll data len ext dev pts0) = true ->
  exists ReadLaserData GetData pointCount floatData,
    m_ReadLaserData proto = Some ReadLaserData /\
    m_GetData proto = Some GetData /\
    len <> 0%Z /\ (0 <= ext < 4)%Z /\
    GetData (ReadLaserData dll data len) ext = (pointCount, Some floatData) /\
    (0 < pointCount)%Z /\
    parsed_deviceID (ParsePacket proto dll data len ext dev pts0) = ext /\
    parsed_points (ParsePacket proto dll data len ext dev pts0) =
      map (lagged_point floatData (Z.to_nat pointCount))
          (seq 0 (Z.to_nat pointCount)).
Proof.
  unfold ParsePacket.
  destruct (m_ReadLaserData proto) as [RL|]; [|done].
  destruct (m_GetData proto) as [GD|]; [|done].
  destruct (len =? 0)%Z eqn:Hlen; [done|].
  destruct ((0 <=? ext)%Z && (ext <? 4)%Z) eqn:Hext; [|done].
  destruct (GD (RL dll data len) ext) as [cnt [fd|]] eqn:HGD; [|done].
  destruct (0 <? cnt)%Z eqn:Hcnt; [|done].
  intros _. exists RL, GD, cnt, fd. cbn.
  rewrite ParsePacket_loop_points.
  apply Z.eqb_neq in Hlen. apply Z.ltb_lt in Hcnt.
  apply andb_true_iff in Hext as [H1 H2].
  apply Z.leb_le in H1. apply Z.ltb_lt in H2.
  repeat split; auto.
Qed.
End ParsePacketFacts.

Lemma clamp01_range c :
  SFleb F32.zero (clamp01 c) = true /\ SFleb (clamp01 c) F32.one = true.
Proof.
  unfold clamp01, std_max, std_min, flt.
  destruct (SFltb c F32.one) eqn:H1.
  - destruct (SFltb F32.zero c) eqn:H0.
    + split.
      * unfold SFleb. unfold SFltb in H0. destruct (SFcompare F32.zero c) as [[]|]; done.
      * unfold SFleb. unfold SFltb in H1. destruct (SFcompare c F32.one) as [[]|]; done.
    + split; reflexivity.
  - split; reflexivity.
Qed.

Lemma in_addr_bytes a b c d :
  (0 <= a < 256)%Z -> (0 <= b < 256)%Z -> (0 <= c < 256)%Z -> (0 <= d < 256)%Z ->
  addrBytes (in_addr a b c d) 0 = a /\
  addrBytes (in_addr a b c d) 1 = b /\
  addrBytes (in_addr a b c d) 2 = c /\
  addrBytes (in_addr a b c d) 3 = d.
Proof.
  intros Ha Hb Hc Hd. unfold addrBytes, in_addr.
  change 255%Z with (Z.ones 8).
  rewrite !Z.land_ones, !Z.shiftr_div_pow2 by lia.
  cbn [Z.mul Z.pow Z.pow_pos Pos.iter Pos.mul].
  repeat split; 
  Z.div_mod_to_equations; lia.
Qed.

(** ** Ticks *)

Section UpdateFacts.
Context {members : LaserPointMembers}.

Lemma hot_beam_scan_total settings prev rest count beam hot :
  (0 <= BeamRepeatThreshold settings)%Z ->
  ((0 < count)%Z -> is_Some beam) ->
  is_Some (hot_beam_scan settings prev rest count beam hot).
Proof.
  intros HT. revert prev count beam hot.
  induction rest as [|curr rest IH]; intros prev count beam hot Hbeam.
  - by eexists.
  - cbn [hot_beam_scan].
    destruct (stationary prev curr && negb (bool_decide (rest = []))).
    + apply IH. intros _. by eexists.
    + destruct (BeamRepeatThreshold settings <? count)%Z eqn:Hc.
      * apply Z.ltb_lt in Hc. destruct Hbeam as [b ->]; [lia|].
        apply IH. lia.
      * apply IH. lia.
Qed.

Lemma GenerateHotBeams_total settings points :
  (0 <= BeamRepeatThreshold settings)%Z ->
  is_Some (GenerateHotBeams settings points).
Proof.
  intros HT. destruct points as [|p rest]; [by eexists|].
  rewrite GenerateHotBeams_scan. apply hot_beam_scan_total; [done|lia].
Qed.

(** The outputs of a tick depend on the raw list, the settings and the
    beam-brush switch only, and a tick changes none of these. *)
Lemma UpdatePointList_frame enableScannerSim src src' :
  UpdatePointList enableScannerSim src = Some src' ->
  m_RawPoints src' = m_RawPoints src /\
  m_Settings src' = m_Settings src /\
  m_DeviceID src' = m_DeviceID src /\
  m_LineWidth src' = m_LineWidth src /\
  m_MaxBeamBrush src' = m_MaxBeamBrush src /\
  m_EnableBeamBrush src' = m_EnableBeamBrush src.
Proof.
  unfold UpdatePointList.
  destruct (length (m_RawPoints src) =? 0).
  - intros [= <-]. by cbn.
  - destruct (GenerateHotBeams _ _); [|done].
    destruct (enableScannerSim && _); intros [= <-]; by cbn.
Qed.

Lemma UpdatePointList_idempotent enableScannerSim src src' :
  UpdatePointList enableScannerSim src = Some src' ->
  UpdatePointList enableScannerSim src' = Some src'.
Proof.
  intros H. pose proof (UpdatePointList_frame _ _ _ H) as (Hr & Hs & Hd & Hl & Hm & Hb).
  rewrite <- H. unfold UpdatePointList. by rewrite Hr, Hs, Hd, Hl, Hm, Hb.
Qed.
End UpdateFacts.

(** ** Decoded packets *)

Section ParsePacketSuccess.
Context {Dll : Type}.
Variable proto : LaserProtocol Dll.
Variables (dll : Dll) (data : list Z) (len ext dev : Z).
Variable pts0 : list LaserPoint.
Variable ReadLaserData : Dll -> list Z -> Z -> Dll.
Variable GetData : Dll -> Z -> Z * option (Z -> float).
Variables (pointCount : Z) (floatData : Z -> float).
Hypothesis has_ReadLaserData : m_ReadLaserData proto = Some ReadLaserData.
Hypothesis has_GetData : m_GetData proto = Some GetData.
Hypothesis len_nonzero : len <> 0%Z.
Hypothesis ext_valid : (0 <= ext < 4)%Z.
Hypothesis decoded :
  GetData (ReadLaserData dll data len) ext = (pointCount, Some floatData).
Hypothesis some_points : (0 < pointCount)%Z.

Lemma ParsePacket_success :
  ParsePacket proto dll data len ext dev pts0 =
  mkParsed true ext
    (map (lagged_point floatData (Z.to_nat pointCount))
         (seq 0 (Z.to_nat pointCount)))
    (ReadLaserData dll data len).
Proof.
  unfold ParsePacket. rewrite has_ReadLaserData, has_GetData.
  rewrite (proj2 (Z.eqb_neq _ _) len_nonzero).
  rewrite (proj2 (Z.leb_le _ _) (proj1 ext_valid)).
  rewrite (proj2 (Z.ltb_lt _ _) (proj2 ext_valid)).
  cbn [andb]. rewrite decoded.
  rewrite (proj2 (Z.ltb_lt _ _) some_points).
  by rewrite ParsePacket_loop_points.
Qed.

Lemma ParsePacket_points_lookup i p :
  parsed_points (ParsePacket proto dll data len ext dev pts0) !! i = Some p ->
  i < Z.to_nat pointCount /\
  p = lagged_point floatData (Z.to_nat pointCount) i.
Proof.
  rewrite ParsePacket_success. cbn [parsed_points].
  rewrite lookup_map_seq.
  destruct (i <? Z.to_nat pointCount) eqn:Hi; [|done].
  apply Nat.ltb_lt in Hi. by intros [= <-].
Qed.
End ParsePacketSuccess.

(** ** Beam markers *)

Lemma length_hot_beam_levels count :
  length (hot_beam_levels count) = Z.to_nat count.
Proof. unfold hot_beam_levels. by rewrite length_map, length_seq. Qed.

Lemma markers_set_Z beamPoint levels :
  map LP.Z (map (set_Z beamPoint) levels) = levels.
Proof. induction levels as [|l levels IH]; [done|]. cbn. by rewrite IH. Qed.

Lemma hot_beam_levels_head2 count n :
  Z.to_nat count = S (S n) ->
  hot_beam_levels count =
    HotBeamLevel count 0 :: HotBeamLevel count 1
    :: map (fun j => HotBeamLevel count (Z.of_nat j)) (seq 2 n).
Proof. unfold hot_beam_levels. intros ->. reflexivity. Qed.

(** * The statements of the specification *)

(** ** The point pipeline *)

(** C6. [DownsamplePoints] with a factor [k >= 1] returns exactly the points
    at the indices 0, k, 2k, ... of its input: the result has
    [ceil (n / k)] points, its first point is the first point of the input,
    and with the factor 1 it is the input itself. *)
Theorem DownsamplePoints_every_kth (points : list LaserPoint) (factor : Z) :
  (1 <= factor)%Z ->
  (forall j, DownsamplePoints points factor !! j
             = points !! (j * Z.to_nat factor)) /\
  length (DownsamplePoints points factor)
    = (length points + Z.to_nat factor - 1) / Z.to_nat factor /\
  head (DownsamplePoints points factor) = head points /\
  (factor = 1%Z -> DownsamplePoints points factor = points).
Proof.
  intros Hf.
  assert (H1 : factor = 1%Z -> DownsamplePoints points factor = points).
  { intros ->. reflexivity. }
  destruct (decide (factor = 1%Z)) as [->|Hne].
  - rewrite H1 by done. repeat split.
    + intros j. f_equal. change (Z.to_nat 1) with 1. lia.
    + change (Z.to_nat 1) with 1.
      replace (length points + 1 - 1) with (length points) by lia.
      by rewrite Nat.div_1_r.
  - assert (Hgt : (1 < factor)%Z) by lia.
    split; [intros j; by apply DownsamplePoints_lookup|].
    split; [by apply DownsamplePoints_length|].
    split; [|done].
    rewrite !head_lookup, DownsamplePoints_lookup by done. reflexivity.
Qed.

(** Factor 2 on five points keeps the points at the indices 0, 2 and 4. *)
Lemma DownsamplePoints_every_kth_witness :
  DownsamplePoints
    [red_at 0 0; red_at 1 0; red_at 2 0; red_at 3 0; red_at 4 0] 2
  = [red_at 0 0; red_at 2 0; red_at 4 0] /\
  length (DownsamplePoints
            [red_at 0 0; red_at 1 0; red_at 2 0; red_at 3 0; red_at 4 0] 2)
  = (5 + 2 - 1) / 2.
Proof.
  split; [reflexivity|].
  apply (DownsamplePoints_every_kth
           [red_at 0 0; red_at 1 0; red_at 2 0; red_at 3 0; red_at 4 0] 2).
  lia.
Defined.

(** C7. [RemoveDuplicatePoints] returns a list that is not longer than its
    input, that starts with the first point of the input, and in which no two
    neighbours are at the same position. *)
Theorem RemoveDuplicatePoints_spec {members : LaserPointMembers}
    (points : list LaserPoint) :
  length (RemoveDuplicatePoints points) <= length points /\
  head (RemoveDuplicatePoints points) = head points /\
  no_adjacent_same_position (RemoveDuplicatePoints points) = true.
Proof.
  destruct points as [|first others]; [by cbn|].
  unfold RemoveDuplicatePoints.
  destruct (RemoveDuplicatePoints_fold others [first] first) as (H1 & H2 & H3);
    [done|done|].
  cbn [length] in *. split; [lia|]. split; done.
Qed.

(** C8. With a raw list of exactly one point, whatever the settings, the
    scanner simulation switch and the beam-brush switch, [UpdatePointList]
    sets the processed list and the beam list to that one point, unchanged
    (and finds no hot beam). *)
Theorem UpdatePointList_single_point {members : LaserPointMembers}
    (enableScannerSim : bool) (src : LaserSource) (p : LaserPoint) :
  m_RawPoints src = [p] ->
  exists src',
    UpdatePointList enableScannerSim src = Some src' /\
    m_ProcessedPoints src' = [p] /\
    m_BeamPoints src' = [p] /\
    m_HotBeamPoints src' = [] /\
    m_RawPoints src' = [p].
Proof.
  intros Hraw. unfold UpdatePointList. rewrite Hraw.
  cbn [length Nat.eqb Nat.ltb Nat.leb].
  change (GenerateHotBeams (m_Settings src) [p]) with (Some (@nil LaserPoint)).
  rewrite andb_false_r.
  eexists. split; [reflexivity|]. cbn.
  destruct (m_EnableBeamBrush src); done.
Qed.

(** One raw point, with the simulation and the beam brush switched on. *)
Lemma UpdatePointList_single_point_witness :
  exists src',
    UpdatePointList (members := spec_members) true
      (source_with (settings_with 3 10) true [red_at 5 7]) = Some src' /\
    m_ProcessedPoints src' = [red_at 5 7] /\
    m_BeamPoints src' = [red_at 5 7] /\
    m_HotBeamPoints src' = [] /\
    m_RawPoints src' = [red_at 5 7].
Proof.
  apply (UpdatePointList_single_point (members := spec_members) true
           (source_with (settings_with 3 10) true [red_at 5 7]) (red_at 5 7)).
  reflexivity.
Defined.

(** C10. [UpdatePointList] leaves the raw list as it is: it writes the
    processed, beam and hot-beam lists only. The next tick therefore
    processes the same raw points again, with the same outcome, until
    [SetPointList] replaces the raw list as a whole. This holds for every
    state and all settings for which the tick is defined, and the tick is
    always defined when [BeamRepeatThreshold] is not negative. *)
Theorem UpdatePointList_keeps_raw {members : LaserPointMembers}
    (enableScannerSim : bool) (src : LaserSource) :
  (forall src',
     UpdatePointList enableScannerSim src = Some src' ->
     m_RawPoints src' = m_RawPoints src /\
     UpdatePointList enableScannerSim src' = Some src' /\
     (forall points, m_RawPoints (SetPointList points src') = points)) /\
  ((0 <= BeamRepeatThreshold (m_Settings src))%Z ->
   is_Some (UpdatePointList enableScannerSim src)).
Proof.
  split.
  - intros src' Hsrc'.
    split; [by apply (UpdatePointList_frame _ _ _ Hsrc')|].
    split; [by apply (UpdatePointList_idempotent _ src)|]. done.
  - intros HT. unfold UpdatePointList.
    destruct (length (m_RawPoints src) =? 0); [by eexists|].
    destruct (GenerateHotBeams_total (m_Settings src) (m_RawPoints src) HT)
      as [hot ->].
    destruct (enableScannerSim && _); by eexists.
Qed.

(** A tick on three raw points, one of them a repeat. *)
Lemma UpdatePointList_keeps_raw_witness :
  exists src',
    UpdatePointList (members := spec_members) true
      (source_with (settings_with 0 2) true
         [red_at 1 1; red_at 1 1; red_at 2 2]) = Some src' /\
    m_RawPoints src' = [red_at 1 1; red_at 1 1; red_at 2 2] /\
    UpdatePointList (members := spec_members) true src' = Some src' /\
    (forall points, m_RawPoints (SetPointList points src') = points).
Proof.
  destruct (UpdatePointList_keeps_raw (members := spec_members) true
              (source_with (settings_with 0 2) true
                 [red_at 1 1; red_at 1 1; red_at 2 2])) as [Hframe Htotal].
  destruct Htotal as [src' Hsrc']; [cbn; lia|].
  exists src'. split; [exact Hsrc'|]. exact (Hframe src' Hsrc').
Defined.

(** ** The receive path *)

(** C5. For a destination address [a.b.c.d], device identification yields
    the third octet [c] when the first two octets are 239 and 255, and the
    unknown device -1 otherwise: 239.255.5.12 gives device 5 and 10.0.0.1
    gives -1. A datagram without destination-address metadata gives -1. *)
Theorem ExtractDeviceID_octets (a b c d : Z) :
  (0 <= a < 256)%Z -> (0 <= b < 256)%Z ->
  (0 <= c < 256)%Z -> (0 <= d < 256)%Z ->
  ExtractDeviceID (in_addr a b c d)
    = (if (a =? 239)%Z && (b =? 255)%Z then c else (-1)%Z) /\
  ExtractDeviceID (in_addr 239 255 5 12) = 5%Z /\
  ExtractDeviceID (in_addr 10 0 0 1) = (-1)%Z /\
  ExtractDeviceID (DestinationAddress []) = (-1)%Z.
Proof.
  intros Ha Hb Hc Hd.
  split; [|by vm_compute].
  destruct (in_addr_bytes a b c d Ha Hb Hc Hd) as (H0 & H1 & H2 & _).
  unfold ExtractDeviceID. rewrite H0, H1, H2.
  destruct (in_addr a b c d =? 0)%Z eqn:Hz; [|reflexivity].
  apply Z.eqb_eq in Hz. unfold in_addr in Hz.
  assert (a = 0%Z) as -> by lia. reflexivity.
Qed.

(** The group 239.255.3.30 belongs to device 3. *)
Lemma ExtractDeviceID_octets_witness :
  ExtractDeviceID (in_addr 239 255 3 30) = 3%Z.
Proof.
  apply (proj1 (ExtractDeviceID_octets 239 255 3 30
                  ltac:(lia) ltac:(lia) ltac:(lia) ltac:(lia))).
Defined.

(** C9. Whatever [MaxDevices] is, the data callback is called with a device
    ID between 0 and 3 only, and that ID is the one taken from the
    destination address: a datagram whose extracted device index is negative
    or at least 4 never reaches the callback. *)
Theorem callback_device_range {Dll : Type} (proto : LaserProtocol Dll)
    (dll : Dll) (result bytesReceived : Z) (buffer : list Z)
    (cmsgs : list cmsg) :
  let step := ReceiveThread_step proto dll result bytesReceived buffer cmsgs in
  let extracted := ExtractDeviceID (DestinationAddress cmsgs) in
  (forall deviceID points,
     recv_callback step = Some (deviceID, points) ->
     (0 <= deviceID <= 3)%Z /\ deviceID = extracted) /\
  ((extracted < 0)%Z \/ (4 <= extracted)%Z -> recv_callback step = None).
Proof.
  cbv zeta. unfold ReceiveThread_step.
  destruct (negb (result =? 0)%Z || (bytesReceived =? 0)%Z); [by split|].
  set (ext := ExtractDeviceID (DestinationAddress cmsgs)).
  destruct (parsed_ok (ParsePacket proto dll buffer bytesReceived ext (-1) []))
    eqn:Hok; [|by split].
  destruct (ParsePacket_ok_inv proto dll buffer bytesReceived ext (-1) [] Hok)
    as (RL & GD & cnt & fd & _ & _ & _ & Hext & _ & _ & Hdev & _).
  cbn [recv_callback]. split.
  - intros deviceID points. destruct (m_DataCallback proto); [|done].
    intros [= <- <-]. rewrite Hdev. split; [lia|done].
  - intros [Hlt|Hge]; lia.
Qed.

(** With [MaxDevices] 9, a datagram sent to 239.255.5.12 (device 5) is handed
    to the vendor module but never reaches the callback. *)
Lemma callback_device_range_witness :
  recv_callback
    (ReceiveThread_step (fixed_decoder 9 1 (replicate 6 F32.one)) tt 0 12
       [1%Z] [mkCmsg IPPROTO_IP IP_PKTINFO (in_addr 239 255 5 12)]) = None.
Proof.
  apply (callback_device_range (fixed_decoder 9 1 (replicate 6 F32.one)) tt
           0 12 [1%Z] [mkCmsg IPPROTO_IP IP_PKTINFO (in_addr 239 255 5 12)]).
  right. vm_compute. discriminate.
Defined.

(** C4. When a packet is decoded, the colour and Focus that come with
    sample [i + 1] are given to output point [i] (after normalisation), the
    last output point has zero colour and Focus, and the Y of every output
    point is the negated Y of its own sample (X is kept). The three samples
    (0,0,0,0,0,0), (10,0,0,0,255,0), (10,10,0,255,0,0) give three points with
    the colours (0,1,0), (1,0,0) and (0,0,0). *)
Theorem ParsePacket_color_lag {Dll : Type} (proto : LaserProtocol Dll)
    (dll : Dll) (data : list Z) (len ext dev : Z) (pts0 : list LaserPoint)
    (ReadLaserData : Dll -> list Z -> Z -> Dll)
    (GetData : Dll -> Z -> Z * option (Z -> float))
    (pointCount : Z) (floatData : Z -> float) :
  m_ReadLaserData proto = Some ReadLaserData ->
  m_GetData proto = Some GetData ->
  len <> 0%Z ->
  (0 <= ext < 4)%Z ->
  GetData (ReadLaserData dll data len) ext = (pointCount, Some floatData) ->
  (0 < pointCount)%Z ->
  let parsed := ParsePacket proto dll data len ext dev pts0 in
  let n := Z.to_nat pointCount in
  parsed_ok parsed = true /\
  parsed_deviceID parsed = ext /\
  length (parsed_points parsed) = n /\
  (forall i p,
     parsed_points parsed !! i = Some p ->
     LP.X p = wire_X floatData i /\
     LP.Y p = F32.neg (wire_Y floatData i) /\
     LP.Z p = F32.zero /\
     (S i < n ->
      color p = ParsePacket_color (wire_R floatData (S i))
                  (wire_G floatData (S i)) (wire_B floatData (S i)) /\
      LP.Focus p = ParsePacket_focus (wire_Focus floatData (S i))) /\
     (S i = n ->
      color p = (F32.zero, F32.zero, F32.zero) /\ LP.Focus p = F32.zero)) /\
  (let example :=
     parsed_points
       (ParsePacket (fixed_decoder 9 3 example_samples) tt [1%Z] 1 0 (-1) []) in
   map color example =
     [(F32.zero, F32.one, F32.zero); (F32.one, F32.zero, F32.zero);
      (F32.zero, F32.zero, F32.zero)] /\
   map LP.Y example =
     [F32.neg (F32.of_int 0); F32.neg (F32.of_int 0); F32.neg (F32.of_int 10)]).
Proof.
  intros HRL HGD Hlen Hext Hdec Hcnt. cbv zeta.
  rewrite (ParsePacket_success proto dll data len ext dev pts0
             ReadLaserData GetData pointCount floatData) by done.
  cbn [parsed_ok parsed_deviceID parsed_points].
  split; [done|]. split; [done|].
  split; [by rewrite length_map, length_seq|].
  split; [|by vm_compute].
  intros i p. rewrite lookup_map_seq.
  destruct (i <? Z.to_nat pointCount) eqn:Hi; [|done].
  intros [= <-]. unfold lagged_point, color.
  destruct (S i <? Z.to_nat pointCount) eqn:Hlast.
  - destruct (ParsePacket_color _ _ _) as [[R G] B].
    cbn. split; [done|]. split; [done|]. split; [done|].
    split; [done|]. apply Nat.ltb_lt in Hlast. lia.
  - cbn. split; [done|]. split; [done|]. split; [done|].
    split; [|done]. apply Nat.ltb_ge in Hlast. lia.
Qed.

(** The end-to-end example decodes, here for device 2. *)
Lemma ParsePacket_color_lag_witness :
  parsed_ok
    (ParsePacket (fixed_decoder 9 3 example_samples) tt [1%Z] 1 2 (-1) [])
  = true.
Proof.
  apply (ParsePacket_color_lag (fixed_decoder 9 3 example_samples) tt [1%Z]
           1 2 (-1) [] (fun dll _ _ => dll)
           (fun _ _ => (3%Z, Some (buffer_of example_samples)))
           3 (buffer_of example_samples));
    first [reflexivity | lia].
Defined.

(** C3, as stated, fails: a sample with R = G = B = 0.5 and Focus 0.5 has no
    channel above 1.0, and its colour is kept, but its Focus is divided by
    255 all the same. *)
Lemma focus_always_scaled_counterexample :
  exists p,
    parsed_points
      (ParsePacket (fixed_decoder 9 2 half_samples) tt [1%Z] 1 0 (-1) []) !! 0
      = Some p /\
    color p = (F32.half, F32.half, F32.half) /\
    LP.Focus p = F32.div F32.half F32.c255 /\
    LP.Focus p <> F32.half.
Proof.
  eexists. split; [vm_compute; reflexivity|].
  split; [reflexivity|]. split; [vm_compute; reflexivity|].
  vm_compute. discriminate.
Qed.

(** C3, amended. The three colour channels of a decoded sample are divided
    by 255 exactly when one of them exceeds 1.0, and are then clamped to
    [0, 1]: with R = 200 all three channels are divided by 255 and clamped,
    with R = G = B = 0.5 the colour is kept. Focus is treated apart from the
    colour: it is always clamped to [0, 255] and then divided by 255. (The
    values of sample [i + 1] are those of output point [i].) *)
Theorem ParsePacket_normalization {Dll : Type} (proto : LaserProtocol Dll)
    (dll : Dll) (data : list Z) (len ext dev : Z) (pts0 : list LaserPoint)
    (ReadLaserData : Dll -> list Z -> Z -> Dll)
    (GetData : Dll -> Z -> Z * option (Z -> float))
    (pointCount : Z) (floatData : Z -> float) (i : nat) (p : LaserPoint) :
  m_ReadLaserData proto = Some ReadLaserData ->
  m_GetData proto = Some GetData ->
  len <> 0%Z ->
  (0 <= ext < 4)%Z ->
  GetData (ReadLaserData dll data len) ext = (pointCount, Some floatData) ->
  (0 < pointCount)%Z ->
  parsed_points (ParsePacket proto dll data len ext dev pts0) !! i = Some p ->
  S i < Z.to_nat pointCount ->
  let R := wire_R floatData (S i) in
  let G := wire_G floatData (S i) in
  let B := wire_B floatData (S i) in
  let Focus := wire_Focus floatData (S i) in
  color p =
    (if fgt R F32.one || fgt G F32.one || fgt B F32.one
     then (clamp01 (F32.div R F32.c255), clamp01 (F32.div G F32.c255),
           clamp01 (F32.div B F32.c255))
     else (clamp01 R, clamp01 G, clamp01 B)) /\
  (R = F32.of_int 200 ->
   color p = (F32.div (F32.of_int 200) F32.c255,
              clamp01 (F32.div G F32.c255), clamp01 (F32.div B F32.c255))) /\
  (R = F32.half -> G = F32.half -> B = F32.half ->
   color p = (F32.half, F32.half, F32.half)) /\
  LP.Focus p = F32.div (std_max F32.zero (std_min F32.c255 Focus)) F32.c255 /\
  (SFleb F32.zero (LP.R p) && SFleb (LP.R p) F32.one
   && SFleb F32.zero (LP.G p) && SFleb (LP.G p) F32.one
   && SFleb F32.zero (LP.B p) && SFleb (LP.B p) F32.one = true).
Proof.
  intros HRL HGD Hlen Hext Hdec Hcnt Hp Hi. cbv zeta.
  destruct (ParsePacket_points_lookup proto dll data len ext dev pts0
              ReadLaserData GetData pointCount floatData
              HRL HGD Hlen Hext Hdec Hcnt i p Hp) as [_ ->].
  unfold lagged_point, color. rewrite (proj2 (Nat.ltb_lt _ _) Hi).
  set (R := wire_R floatData (S i)). set (G := wire_G floatData (S i)).
  set (B := wire_B floatData (S i)).
  assert (Hcol : ParsePacket_color R G B =
    (if fgt R F32.one || fgt G F32.one || fgt B F32.one
     then (clamp01 (F32.div R F32.c255), clamp01 (F32.div G F32.c255),
           clamp01 (F32.div B F32.c255))
     else (clamp01 R, clamp01 G, clamp01 B))).
  { unfold ParsePacket_color.
    by destruct (fgt R F32.one || fgt G F32.one || fgt B F32.one). }
  rewrite Hcol.
  split; [|split; [|split; [|split]]].
  - by destruct (fgt R F32.one || fgt G F32.one || fgt B F32.one).
  - intros HR. rewrite HR. reflexivity.
  - intros -> -> ->. reflexivity.
  - by destruct (fgt R F32.one || fgt G F32.one || fgt B F32.one).
  - destruct (fgt R F32.one || fgt G F32.one || fgt B F32.one); cbn [LP.R LP.G LP.B];
      repeat match goal with
             | |- context [clamp01 ?c] =>
                 let H0 := fresh in let H1 := fresh in
                 destruct (clamp01_range c) as [H0 H1];
                 rewrite H0, H1; clear H0 H1
             end; reflexivity.
Qed.

(** A sample with R = 200, G = 0.5, B = 1 and Focus 51: the three channels
    are divided by 255, and so is Focus. *)
Lemma ParsePacket_normalization_witness :
  exists p,
    parsed_points
      (ParsePacket (fixed_decoder 9 2 bright_samples) tt [1%Z] 1 0 (-1) []) !! 0
      = Some p /\
    color p = (F32.div (F32.of_int 200) F32.c255,
               clamp01 (F32.div F32.half F32.c255),
               clamp01 (F32.div F32.one F32.c255)) /\
    LP.Focus p = F32.div (F32.of_int 51) F32.c255.
Proof.
  eexists. split; [vm_compute; reflexivity|].
  split.
  - refine (proj1 (proj2
      (ParsePacket_normalization (fixed_decoder 9 2 bright_samples) tt [1%Z]
         1 0 (-1) [] (fun dll _ _ => dll)
         (fun _ _ => (2%Z, Some (buffer_of bright_samples)))
         2 (buffer_of bright_samples) 0 _ _ _ _ _ _ _ _ _)) _);
      first [reflexivity | lia | (cbn; lia)].
  - vm_compute. reflexivity.
Defined.

(** ** Hot-beam detection *)

(** C1, as stated, fails for some values of [BeamIntensityCount]. With one
    intensity level the single marker of a detected beam is 0.0001 and not
    1.0 (0/0 is NaN, and [std::max(0.0001f, NaN)] is 0.0001f); with 10001
    levels the first two markers are both 0.0001, so the markers are not
    strictly increasing. In both cases the run has
    [BeamRepeatThreshold + 1] pairs and is closed by a position change. *)
Lemma hot_beam_markers_counterexample :
  GenerateHotBeams (members := spec_members) (settings_with 0 1)
    [red_at 1 1; red_at 1 1; red_at 2 2]
  = Some [set_Z (red_at 1 1) F32.c0_0001] /\
  F32.c0_0001 <> F32.one /\
  exists first second others,
    GenerateHotBeams (members := spec_members) (settings_with 0 10001)
      [red_at 1 1; red_at 1 1; red_at 2 2] = Some (first :: second :: others) /\
    length others = Z.to_nat 9999 /\
    LP.Z first = F32.c0_0001 /\
    LP.Z second = F32.c0_0001 /\
    flt (LP.Z first) (LP.Z second) = false.
Proof.
  split; [vm_compute; reflexivity|].
  split; [discriminate|].
  pose proof (GenerateHotBeams_closed_run (members := spec_members)
                (settings_with 0 10001) [] [red_at 1 1; red_at 1 1]
                (red_at 2 2) []) as Hrun.
  destruct (run_hot_beams_long
              (settings_with 0 10001) [red_at 1 1; red_at 1 1])
    as (b & Hb & Hemit); [discriminate|cbn; lia|].
  injection Hb as <-.
  change (BeamIntensityCount (settings_with 0 10001)) with 10001%Z in Hemit.
  rewrite Hemit in Hrun.
  rewrite (hot_beam_levels_head2 10001 (Z.to_nat 9999)) in Hrun by lia.
  assert (H0 : HotBeamLevel 10001 0 = F32.c0_0001) by (vm_compute; reflexivity).
  assert (H1 : HotBeamLevel 10001 1 = F32.c0_0001) by (vm_compute; reflexivity).
  rewrite H0, H1 in Hrun.
  specialize (Hrun ltac:(cbn; lia) ltac:(discriminate) eq_refl eq_refl eq_refl).
  change (GenerateHotBeams (settings_with 0 10001) ([] ++ take 1 [red_at 1 1; red_at 1 1]))
    with (Some (@nil LaserPoint)) in Hrun.
  change (GenerateHotBeams (settings_with 0 10001) [red_at 2 2])
    with (Some (@nil LaserPoint)) in Hrun.
  cbn [mbind option_bind option_ret mret app map] in Hrun.
  rewrite app_nil_r in Hrun.
  eexists _, _, _. split; [exact Hrun|].
  split; [by rewrite !length_map, length_seq|].
  split; [reflexivity|]. split; reflexivity.
Qed.

(** C1, amended. A run of stationary pairs that is closed by a later point
    (a position change or a blank point) adds to the hot-beam list, between
    what the points before it and the points after it add: nothing when it
    has at most [BeamRepeatThreshold] pairs, so nothing when it has exactly
    that many; when it has more, so when it has [BeamRepeatThreshold + 1],
    exactly [BeamIntensityCount] copies of its last point but one, whose
    markers are the levels [max (0.0001, j / (BeamIntensityCount - 1))].
    For [BeamIntensityCount] from 2 to 10000 these markers are strictly
    increasing and the last one is 1.0. *)
Theorem GenerateHotBeams_closed_run_spec {members : LaserPointMembers}
    (settings : LaserSettings) (pre run : list LaserPoint) (q : LaserPoint)
    (rest : list LaserPoint) :
  (0 <= BeamRepeatThreshold settings)%Z ->
  run <> [] ->
  stationary_run run = true ->
  run_boundary pre run = true ->
  run_boundary run [q] = true ->
  let pairs := Z.of_nat (length run - 1) in
  let count := BeamIntensityCount settings in
  GenerateHotBeams settings (pre ++ run ++ q :: rest) =
    (h1 ← GenerateHotBeams settings (pre ++ take 1 run);
     h3 ← GenerateHotBeams settings (q :: rest);
     Some (h1 ++ run_hot_beams settings run ++ h3)) /\
  ((pairs <= BeamRepeatThreshold settings)%Z ->
   run_hot_beams settings run = []) /\
  ((BeamRepeatThreshold settings < pairs)%Z ->
   exists beamPoint,
     run !! (length run - 2) = Some beamPoint /\
     run_hot_beams settings run = map (set_Z beamPoint) (hot_beam_levels count) /\
     length (run_hot_beams settings run) = Z.to_nat count /\
     map LP.Z (run_hot_beams settings run) = hot_beam_levels count /\
     ((2 <= count <= 10000)%Z ->
      adjacent_all flt (hot_beam_levels count) = true /\
      last (hot_beam_levels count) = Some F32.one)).
Proof.
  intros HT Hne Hrun Hleft Hright. cbv zeta.
  split; [by apply GenerateHotBeams_closed_run|].
  split; [by apply run_hot_beams_short|].
  intros Hlong.
  destruct (run_hot_beams_long settings run Hne Hlong) as (b & Hb & Hemit).
  exists b. split; [done|]. split; [done|]. rewrite Hemit.
  split; [by rewrite length_map, length_hot_beam_levels|].
  split; [apply markers_set_Z|].
  intros Hcount. by apply hot_beam_levels_rise.
Qed.

(** Threshold 1 and three levels: a run of two pairs, closed by a position
    change, gives three copies with the markers 0.0001, 0.5 and 1.0. *)
Lemma GenerateHotBeams_closed_run_spec_witness :
  GenerateHotBeams (members := spec_members) (settings_with 1 3)
    ([red_at 0 0] ++ [red_at 1 1; red_at 1 1; red_at 1 1] ++ red_at 2 2 :: [])
  = Some (map (set_Z (red_at 1 1)) [F32.c0_0001; F32.half; F32.one]).
Proof.
  destruct (GenerateHotBeams_closed_run_spec (members := spec_members)
              (settings_with 1 3) [red_at 0 0]
              [red_at 1 1; red_at 1 1; red_at 1 1] (red_at 2 2) [])
    as (Heq & _ & _);
    [cbn; lia | discriminate | reflexivity | reflexivity | reflexivity |].
  rewrite Heq. vm_compute. reflexivity.
Defined.

(** C2 fails on the code. The loop never counts the pair at the last index,
    so a run that ends with the list adds nothing unless it has more than
    [BeamRepeatThreshold + 1] pairs, and what it then adds are copies of its
    last point but two. In particular a run of [BeamRepeatThreshold + 1]
    pairs, which exceeds the threshold, is not emitted when the list ends
    with it. *)
Theorem GenerateHotBeams_final_run {members : LaserPointMembers}
    (settings : LaserSettings) (pre run : list LaserPoint) :
  (0 <= BeamRepeatThreshold settings)%Z ->
  2 <= length run ->
  stationary_run run = true ->
  run_boundary pre run = true ->
  GenerateHotBeams settings (pre ++ run) =
    (h1 ← GenerateHotBeams settings (pre ++ take 1 run);
     Some (h1 ++ final_run_hot_beams settings run)) /\
  (Z.of_nat (length run - 1) = (BeamRepeatThreshold settings + 1)%Z ->
   final_run_hot_beams settings run = []).
Proof.
  intros HT Hlen Hrun Hleft.
  destruct run as [|r0 rs]; [cbn in Hlen; lia|].
  assert (Hrs : rs <> []) by (destruct rs; [cbn in Hlen; lia|done]).
  assert (Hend : forall hot,
    hot_beam_scan settings r0 rs 0 None hot =
    Some (hot ++ final_run_hot_beams settings (r0 :: rs))).
  { intros hot.
    rewrite (hot_beam_scan_run_end settings r0 rs 0 None hot Hrun Hrs).
    unfold final_run_hot_beams. cbn [length].
    replace (S (length rs) - 2) with (length rs - 1) by lia.
    replace (0 + Z.of_nat (length rs - 1))%Z
      with (Z.of_nat (length rs - 1)) by lia.
    destruct rs as [|r1 [|r2 rs]]; [done| |].
    - cbn [length Nat.sub].
      replace (BeamRepeatThreshold settings <? Z.of_nat 0)%Z
        with false by (symmetry; apply Z.ltb_ge; lia).
      cbn. by rewrite app_nil_r.
    - rewrite bool_decide_eq_false_2 by (cbn; lia). cbn [length].
      replace (S (S (S (length rs))) - 3) with (S (S (length rs)) - 2) by lia.
      destruct ((r0 :: r1 :: r2 :: rs) !! (S (S (length rs)) - 2)) as [b|] eqn:Hb.
      + destruct (BeamRepeatThreshold settings <? _)%Z.
        * by rewrite (EmitHotBeams_app _ b hot).
        * by rewrite app_nil_r.
      + apply lookup_ge_None in Hb. cbn [length] in Hb. lia. }
  split.
  - replace (take 1 (r0 :: rs)) with [r0] by (by destruct rs).
    destruct pre as [|p0 pre].
    + cbn [app]. rewrite GenerateHotBeams_scan, Hend. reflexivity.
    + cbn [app]. rewrite !GenerateHotBeams_scan.
      destruct (last (p0 :: pre)) as [b|] eqn:Hlp;
        [|by apply last_None in Hlp].
      assert (Hnl : stationary b r0 = false).
      { unfold run_boundary in Hleft. rewrite Hlp in Hleft. cbn in Hleft.
        by destruct (stationary b r0). }
      rewrite (hot_beam_scan_prefix settings p0 pre b r0 _ 0 None [] Hlp Hnl).
      destruct (hot_beam_scan settings p0 (pre ++ [r0]) 0 None []) as [h1|];
        cbn; [|done].
      apply Hend.
  - intros Hpairs. unfold final_run_hot_beams.
    destruct (_ !! _); [|done].
    replace (BeamRepeatThreshold settings <? _)%Z with false; [done|].
    symmetry. apply Z.ltb_ge. cbn [length] in *. lia.
Qed.

(** Threshold 1: three equal visible points and nothing after them give no
    hot beam, although the run has two pairs. *)
Lemma GenerateHotBeams_final_run_witness :
  GenerateHotBeams (members := spec_members) (settings_with 1 3)
    ([] ++ [red_at 1 1; red_at 1 1; red_at 1 1]) = Some [].
Proof.
  destruct (GenerateHotBeams_final_run (members := spec_members)
              (settings_with 1 3) [] [red_at 1 1; red_at 1 1; red_at 1 1])
    as (Heq & Hnone);
    [cbn; lia | cbn; lia | reflexivity | reflexivity |].
  rewrite Heq, Hnone; [reflexivity | reflexivity].
Defined.
